(** * UltraSpeed (wifi-monitor): the probe handlers of [electron/main.ts] and
      the polling loop of [src/App.tsx]

    The main process registers three IPC handlers, [get-active-connection],
    [get-local-devices] and [get-network-usage]; the renderer polls two of them
    on a timer and folds the answers into React state.  Every handler is an
    [async] function, so it runs atomically from one [await] to the next on a
    single-threaded event loop.  The embedding follows that structure: the
    code between two suspension points is one transition of a step function,
    and what the awaited providers answer is the event that triggers it.

    JavaScript numbers are modelled by exact rationals ([Q]); providers that
    may throw or reject answer with a [Result]. *)

From Stdlib Require Import List ZArith QArith Qround Qabs Qpower Bool String Ascii.
From Stdlib Require Import Sorted Lia Lqa.
Import ListNotations.

Set Implicit Arguments.

(** A settled promise, or a call that may throw. *)
Inductive Result (A : Type) : Type :=
| Fulfilled (a : A)
| Rejected.
Arguments Rejected {A}.

(** Membership and removal on lists of invocation identifiers. *)
Definition mem (id : nat) (l : list nat) : bool := existsb (Nat.eqb id) l.
Definition drop (id : nat) (l : list nat) : list nat :=
  filter (fun j => negb (Nat.eqb j id)) l.

(** ** The privileged coordinator: [get-local-devices] (main.ts, 113-131) *)
Module Coordinator.

(** What [local-devices] reports for one host. *)
Record Device : Type := mkDevice { ip : string; mac : string; name : string }.

(** The delay given to [setTimeout] in the race, in milliseconds. *)
Definition SCAN_TIMEOUT : Z := 15000.

(** The main process between two turns of its event loop.  [isScanning] is
    the module-level [let isScanning]; an invocation is in [awaiting] while
    its handler is suspended at [await Promise.race([...])]; [finds] and
    [timers] hold the [find()] calls that have not settled and the
    [setTimeout] callbacks that have not fired, each under the number of the
    invocation that created it.  Neither is cancelled when the race settles. *)
Record state : Type := mkState {
  isScanning : bool;
  awaiting : list nat;
  finds : list nat;
  timers : list nat;
  next : nat
}.

Definition init : state := mkState false [] [] [] 0.

Inductive event : Type :=
| Invoke                                        (* ipcRenderer.invoke arrives *)
| FindFulfilled (id : nat) (devs : list Device) (* find() of [id] resolves *)
| FindRejected (id : nat)                       (* find() of [id] rejects *)
| TimerFired (id : nat).                        (* the 15000 ms timer of [id] *)

(** The answer sent back over IPC: which invocation, and its array. *)
Definition response : Type := (nat * list Device)%type.

(** The race of invocation [id] sees one of its two promises settle.  Only
    the first one counts: afterwards [id] is no longer suspended.  The
    handler then runs [return devices] or the [catch] branch, and in both
    cases the [finally] block. *)
Definition resume (st : state) (id : nat) (r : Result (list Device))
  : state * option response :=
  if mem id (awaiting st) then
    let ret := match r with
               | Fulfilled devices => devices
               | Rejected => []
               end in
    (mkState false (drop id (awaiting st)) (finds st) (timers st) (next st),
     Some (id, ret))
  else (st, None).

Definition step (st : state) (e : event) : state * option response :=
  match e with
  | Invoke =>
      let id := next st in
      if isScanning st then
        (mkState (isScanning st) (awaiting st) (finds st) (timers st) (S id),
         Some (id, []))
      else
        (mkState true (id :: awaiting st) (id :: finds st) (id :: timers st)
                 (S id),
         None)
  | FindFulfilled id devs =>
      if mem id (finds st) then
        resume (mkState (isScanning st) (awaiting st) (drop id (finds st))
                        (timers st) (next st))
               id (Fulfilled devs)
      else (st, None)
  | FindRejected id =>
      if mem id (finds st) then
        resume (mkState (isScanning st) (awaiting st) (drop id (finds st))
                        (timers st) (next st))
               id Rejected
      else (st, None)
  | TimerFired id =>
      if mem id (timers st) then
        resume (mkState (isScanning st) (awaiting st) (finds st)
                        (drop id (timers st)) (next st))
               id Rejected
      else (st, None)
  end.

Fixpoint run (st : state) (es : list event) : state * list response :=
  match es with
  | [] => (st, [])
  | e :: es' =>
      let (st1, r) := step st e in
      let (st2, rs) := run st1 es' in
      (st2, match r with Some x => x :: rs | None => rs end)
  end.

Inductive reachable : state -> Prop :=
| reach_init : reachable init
| reach_step st e : reachable st -> reachable (fst (step st e)).

(** How a [find()] call behaves in time: it resolves or rejects [t] ms after
    the call, or it never settles. *)
Inductive Discovery : Type :=
| Resolves (t : Z) (devs : list Device)
| Fails (t : Z)
| Hangs.

Section Race.

(** When [find()] settles at the very instant the timer is due, the event
    loop may serve either first. *)
Variable timer_wins_tie : bool.

Definition find_first (t : Z) : bool :=
  if (t =? SCAN_TIMEOUT)%Z then negb timer_wins_tie
  else (t <? SCAN_TIMEOUT)%Z.

(** The order in which the event loop delivers what invocation [id]
    started. *)
Definition schedule (id : nat) (d : Discovery) : list event :=
  match d with
  | Resolves t devs =>
      if find_first t then [FindFulfilled id devs; TimerFired id]
      else [TimerFired id; FindFulfilled id devs]
  | Fails t =>
      if find_first t then [FindRejected id; TimerFired id]
      else [TimerFired id; FindRejected id]
  | Hangs => [TimerFired id]
  end.

(** One invocation followed to the end, nothing else arriving meanwhile. *)
Definition get_local_devices (st : state) (d : Discovery)
  : state * list response :=
  run st (Invoke :: schedule (next st) d).

End Race.

(** While the guard is held exactly one invocation is suspended, and both its
    [find()] call and its timer are still pending; while it is free nobody is
    suspended. *)
Definition guard_inv (st : state) : Prop :=
  if isScanning st
  then exists id, awaiting st = [id] /\ In id (finds st) /\ In id (timers st)
  else awaiting st = [].

(** Every [find()] call in flight was started by an invocation already
    numbered, and it either belongs to the suspended invocation or has
    outlived its timer: its scan timed out and left it running. *)
Definition finds_inv (st : state) : Prop :=
  forall id, In id (finds st) ->
    (id < next st)%nat /\ (In id (awaiting st) \/ ~ In id (timers st)).

End Coordinator.

(** ** What the system libraries hand back *)

(** [systeminformation]: the fields of an interface entry and of a statistics
    entry that the handlers read. *)
Module Si.

Record NetworkInterface : Type := mkInterface {
  iface : string;
  type : string;
  speed : option Q;        (* Mbit/s, or null *)
  operstate : string;
  ip4 : string;
  mac : string
}.

Record NetworkStats : Type := mkStats {
  stats_iface : string;
  rx_sec : Q;
  tx_sec : Q
}.

End Si.

(** [node-wifi]: an entry of [getCurrentConnections()]. *)
Module Wifi.

Record Connection : Type := mkConnection {
  ssid : string;
  signal_level : Q;
  security : string
}.

End Wifi.

(** ** The system probe adapter: [get-active-connection] and
       [get-network-usage] (main.ts, 60-111 and 135-151) *)
Module ProbeAdapter.

(** The object the connection handler returns.  The literal returned when no
    interface is found has five properties only; the four others are absent
    from it ([None]). *)
Record ConnectionStats : Type := mkConnectionStats {
  ssid : string;
  signal_level : option Q;
  security : option string;
  type : string;
  speed : Q;
  status : string;
  ip4 : string;
  mac : option string;
  iface : option string
}.

(** What the providers answer during one handler call.  A JavaScript array
    that may be [null] or [undefined] is an [option (list _)]. *)
Record Providers : Type := mkProviders {
  networkInterfaceDefault : Result string;
  networkInterfaces : Result (list Si.NetworkInterface);
  getCurrentConnections : Result (option (list Wifi.Connection));
  networkStats : option string -> Result (option (list Si.NetworkStats))
}.

(** [a || b] on values that are objects or [undefined]. *)
Definition orElse {A : Type} (a b : option A) : option A :=
  match a with
  | Some _ => a
  | None => b
  end.

(** [s || d] on strings: the empty string is falsy. *)
Definition strOr (s d : string) : string :=
  if String.eqb s EmptyString then d else s.

(** [x || 0] on a number that may be [null]: [null] and [0] are falsy. *)
Definition numOr0 (x : option Q) : Q :=
  match x with
  | Some q => if Qeq_bool q 0 then 0 else q
  | None => 0
  end.

(** [x > y] on numbers. *)
Definition Qgtb (x y : Q) : bool := negb (Qle_bool x y).

Definition disconnected : ConnectionStats :=
  mkConnectionStats "No Connection" None None "none" 0 "down" "0.0.0.0"
                    None None.

(** The interface the handler reports on: the default one by name, else the
    first that is up with an address. *)
Definition select_interface (defaultIfaceName : string)
           (allInterfaces : list Si.NetworkInterface)
  : option Si.NetworkInterface :=
  orElse
    (find (fun i => String.eqb (Si.iface i) defaultIfaceName) allInterfaces)
    (find (fun i => String.eqb (Si.operstate i) "up"
                    && negb (String.eqb (Si.ip4 i) EmptyString))
          allInterfaces).

Definition get_active_connection (p : Providers) : option ConnectionStats :=
  match networkInterfaceDefault p with
  | Rejected => None
  | Fulfilled defaultIfaceName =>
  match networkInterfaces p with
  | Rejected => None
  | Fulfilled allInterfaces =>
  match select_interface defaultIfaceName allInterfaces with
  | None => Some disconnected
  | Some iface0 =>
      let stats :=
        mkConnectionStats (Si.iface iface0) (Some 100) (Some "N/A"%string)
                          (Si.type iface0) (numOr0 (Si.speed iface0))
                          (Si.operstate iface0) (Si.ip4 iface0)
                          (Some (Si.mac iface0)) (Some (Si.iface iface0)) in
      if String.eqb (Si.type iface0) "wireless" then
        match getCurrentConnections p with
        | Fulfilled (Some (c :: _)) =>
            Some (mkConnectionStats
                    (strOr (Wifi.ssid c) (Si.iface iface0))
                    (Some (Wifi.signal_level c)) (Some (Wifi.security c))
                    (type stats) (speed stats) (status stats) (ip4 stats)
                    (mac stats) (iface stats))
        | Fulfilled _ => Some stats
        | Rejected => Some stats          (* catch (wErr): warn and go on *)
        end
      else
        Some (mkConnectionStats "Ethernet Connection"
                (signal_level stats) (security stats)
                (type stats) (speed stats) (status stats) (ip4 stats)
                (mac stats) (iface stats))
  end end end.

Definition get_network_usage (p : Providers) : option Si.NetworkStats :=
  match networkInterfaceDefault p with
  | Rejected => None
  | Fulfilled defaultIface =>
  match networkStats p (Some defaultIface) with
  | Rejected => None
  | Fulfilled (Some (s0 :: _)) => Some s0
  | Fulfilled _ =>
      match networkStats p None with
      | Rejected => None
      | Fulfilled None => None       (* [allStats.find] throws a TypeError *)
      | Fulfilled (Some allStats) =>
          orElse (find (fun s => Qgtb (Si.rx_sec s) 0 || Qgtb (Si.tx_sec s) 0)
                       allStats)
                 (hd_error allStats)
      end
  end end.

(** The fallback of [get-network-usage] as the specification words it: the
    first entry with a nonzero receive or transmit rate, else the first entry,
    else null. *)
Definition first_nonzero_or_first (allStats : list Si.NetworkStats)
  : option Si.NetworkStats :=
  orElse (find (fun s => negb (Qeq_bool (Si.rx_sec s) 0)
                         || negb (Qeq_bool (Si.tx_sec s) 0))
               allStats)
         (hd_error allStats).

(** An entry whose receive or transmit rate is above zero. *)
Definition has_traffic (s : Si.NetworkStats) : Prop :=
  0 < Si.rx_sec s \/ 0 < Si.tx_sec s.

(** Sample provider answers: no interface at all; a wireless and a wired
    interface; statistics in which the first entry carries a negative rate. *)
Definition wlan0 : Si.NetworkInterface :=
  Si.mkInterface "wlan0" "wireless" (Some 300) "up" "192.168.1.7"
                 "aa:bb:cc:dd:ee:ff".

Definition eth0 : Si.NetworkInterface :=
  Si.mkInterface "eth0" "wired" (Some 1000) "up" "10.0.0.2"
                 "00:11:22:33:44:55".

Definition no_stats (a : option string)
  : Result (option (list Si.NetworkStats)) := Fulfilled (Some []).

Definition providers_without_interface : Providers :=
  mkProviders (Fulfilled ""%string) (Fulfilled []) Rejected no_stats.

Definition providers_wifi_down : Providers :=
  mkProviders (Fulfilled "wlan0"%string) (Fulfilled [eth0; wlan0]) Rejected
              no_stats.

Definition providers_wired : Providers :=
  mkProviders (Fulfilled "eth0"%string) (Fulfilled [eth0; wlan0]) Rejected
              no_stats.

Definition stats_lo : Si.NetworkStats := Si.mkStats "lo" (-1) 0.
Definition stats_eth0 : Si.NetworkStats := Si.mkStats "eth0" 5 0.

Definition providers_negative_rate : Providers :=
  mkProviders (Fulfilled "eth0"%string) (Fulfilled []) Rejected
              (fun a => match a with
                        | Some _ => Fulfilled (Some [])
                        | None => Fulfilled (Some [stats_lo; stats_eth0])
                        end).

(** Statistics in which the first entry is idle and the second one busy,
    the default interface's own statistics being empty. *)
Definition stats_idle : Si.NetworkStats := Si.mkStats "lo" 0 0.

Definition providers_idle_first : Providers :=
  mkProviders (Fulfilled "eth0"%string) (Fulfilled []) Rejected
              (fun a => match a with
                        | Some _ => Fulfilled (Some [])
                        | None => Fulfilled (Some [stats_idle; stats_eth0])
                        end).

(** No rate of the entry is below zero. *)
Definition rates_nonneg (s : Si.NetworkStats) : Prop :=
  0 <= Si.rx_sec s /\ 0 <= Si.tx_sec s.

End ProbeAdapter.

(** ** The display state aggregator: [App] (App.tsx) *)
Module Aggregator.

(** *** Unit conversion (App.tsx, 103-109 and 404-418) *)

(** [x.toFixed(fractionDigits)], as the number its decimal text denotes
    (ECMA-262, Number.prototype.toFixed): the sign is split off; from 10^21
    on the text is that of [String(x)]; below, it is [n / 10^f] for the
    integer [n] nearest to [x * 10^f], the larger one when two are as near. *)
Definition toFixed (fractionDigits : nat) (x : Q) : Q :=
  let a := Qabs x in
  if Qle_bool (10 ^ 21) a then x
  else
    let scale := inject_Z (10 ^ Z.of_nat fractionDigits) in
    let n := Qfloor (a * scale + (1 # 2)) in
    let r := inject_Z n / scale in
    if Qle_bool 0 x then r else - r.

(** [parseFloat] reads a decimal text back as the number it denotes. *)
Definition parseFloat (text : Q) : Q := text.

(** [Math.round]: the nearest integer, the one towards +infinity on a tie. *)
Definition Math_round (x : Q) : Z := Qfloor (x + (1 # 2)).

Record Speed : Type := mkSpeed { val : Q; unit : string }.

Definition formatSpeed (bytesPerSec : Q) : Speed :=
  if Qeq_bool bytesPerSec 0 then mkSpeed 0 "B/s"
  else
    let kbps := bytesPerSec / 1024 in
    if negb (Qle_bool 1000 kbps) then
      mkSpeed (parseFloat (toFixed 1 kbps)) "KB/s"
    else
      let mbps := kbps / 1024 in
      mkSpeed (parseFloat (toFixed 1 mbps)) "MB/s".

(** The [value] prop of the download and upload gauges. *)
Definition gauge_value (s : Speed) : Z :=
  if String.eqb (unit s) "MB/s" then Math_round (val s * 8)
  else Math_round (val s / 128).

(** *** The clock label *)

(** [new Date()] as local civil time, in milliseconds. *)
Definition Date : Type := Z.

(** What the engine makes of [hour12: false] for en-US: hours 00 to 23, or
    hours 01 to 24 with midnight shown as 24. *)
Inductive HourCycle : Type := h23 | h24.

Definition digit (n : Z) : ascii := ascii_of_N (48 + Z.to_N n).

Definition two_digit (n : Z) : string :=
  String (digit (n / 10)) (String (digit (n mod 10)) EmptyString).

(** Seconds elapsed since local midnight. *)
Definition seconds_of_day (d : Date) : Z := ((d / 1000) mod 86400)%Z.

Definition hour_text (hc : HourCycle) (h : Z) : Z :=
  match hc with
  | h23 => h
  | h24 => if (h =? 0)%Z then 24%Z else h
  end.

(** [d.toLocaleTimeString('en-US', { hour12: false, hour: '2-digit',
    minute: '2-digit', second: '2-digit' })]: the time of day as HH:MM:SS on
    the 24-hour clock. *)
Definition toLocaleTimeString (hc : HourCycle) (d : Date) : string :=
  let s := seconds_of_day d in
  (two_digit (hour_text hc (s / 3600)) ++ ":"
   ++ two_digit ((s / 60) mod 60) ++ ":" ++ two_digit (s mod 60))%string.

(** The label starts over once in 24 hours: at midnight on the [h23] clock,
    at one in the morning on the [h24] clock.  [cycle_of] numbers the
    stretches in between. *)
Definition cycle_start (hc : HourCycle) : Z :=
  match hc with
  | h23 => 0%Z
  | h24 => 3600000%Z
  end.

Definition cycle_of (hc : HourCycle) (d : Date) : Z :=
  ((d - cycle_start hc) / 86400000)%Z.

(** *** The polling loop (App.tsx, 93-166) *)

Record UsageSample : Type := mkSample { label : string; rx : Q; tx : Q }.

(** [arr.slice(-n)]: the last [n] elements, all of them when there are fewer. *)
Definition slice_last {A : Type} (n : nat) (l : list A) : list A :=
  skipn (List.length l - n) l.

(** The updater handed to [setUsageHistory]; [now] is the text that
    [new Date().toLocaleTimeString(...)] gives when the updater runs. *)
Definition push_usage (usage : Si.NetworkStats) (now : string)
           (prev : list UsageSample) : list UsageSample :=
  let rxKB := Si.rx_sec usage / 1024 in
  let txKB := Si.tx_sec usage / 1024 in
  let newData := prev ++ [mkSample now rxKB txKB] in
  slice_last 40 newData.

(** Where a call of [fetchStats] is suspended. *)
Inductive phase : Type :=
| AwaitConnection     (* at [await getActiveConnection()] *)
| AwaitUsage.         (* at [await getNetworkUsage()] *)

(** The component between two turns of the renderer's event loop: the two
    pieces of React state the loop writes, the [isPolling] ref, whether the
    interval and the one-shot timer of the effect are armed, and the calls of
    [fetchStats] that are suspended.  [setConnection] and [setUsageHistory]
    are writes to that state; React runs the cleanup of an effect before it
    runs the effect again, and also when the component goes away.  After a
    cleanup that no run of the effect follows the component is gone: what
    the two fields hold from then on is what was handed to the setters. *)
Record state : Type := mkState {
  connection : option ProbeAdapter.ConnectionStats;
  usageHistory : list UsageSample;
  isPolling : bool;
  statsInterval : bool;
  initialScanTimer : bool;
  ticks : list (nat * phase);
  next : nat
}.

Definition init : state := mkState None [] true false false [] 0.

Inductive event : Type :=
| EffectRun                         (* the body of [useEffect] *)
| Cleanup                           (* the function that body returned *)
| IntervalFired                     (* [statsInterval] is due *)
| ScanTimerFired                    (* [initialScanTimer] is due *)
| ConnectionResult (id : nat)
    (r : Result (option ProbeAdapter.ConnectionStats))
| UsageResult (id : nat) (r : Result (option Si.NetworkStats)) (now : string).

Definition phase_eqb (a b : phase) : bool :=
  match a, b with
  | AwaitConnection, AwaitConnection => true
  | AwaitUsage, AwaitUsage => true
  | _, _ => false
  end.

(** Is call [id] suspended in phase [ph]? *)
Definition suspended (id : nat) (ph : phase) (l : list (nat * phase)) : bool :=
  existsb (fun t => Nat.eqb (fst t) id && phase_eqb (snd t) ph) l.

Definition forget (id : nat) (l : list (nat * phase)) : list (nat * phase) :=
  filter (fun t => negb (Nat.eqb (fst t) id)) l.

(** [fetchStats()] up to its first [await]. *)
Definition fetchStats (st : state) : state :=
  if negb (isPolling st) then st
  else mkState (connection st) (usageHistory st) (isPolling st)
               (statsInterval st) (initialScanTimer st)
               ((next st, AwaitConnection) :: ticks st) (S (next st)).

Definition step (st : state) (e : event) : state :=
  match e with
  | EffectRun =>
      let st1 := mkState (connection st) (usageHistory st) true
                         (statsInterval st) (initialScanTimer st)
                         (ticks st) (next st) in
      let st2 := fetchStats st1 in
      mkState (connection st2) (usageHistory st2) (isPolling st2)
              true true (ticks st2) (next st2)
  | Cleanup =>
      mkState (connection st) (usageHistory st) false false false
              (ticks st) (next st)
  | IntervalFired =>
      if statsInterval st then fetchStats st else st
  | ScanTimerFired =>
      (* [scanDevices] writes [scanning] and [devices] only *)
      mkState (connection st) (usageHistory st) (isPolling st)
              (statsInterval st) false (ticks st) (next st)
  | ConnectionResult id r =>
      if suspended id AwaitConnection (ticks st) then
        match r with
        | Rejected =>                   (* caught: "IPC polling failed" *)
            mkState (connection st) (usageHistory st) (isPolling st)
                    (statsInterval st) (initialScanTimer st)
                    (forget id (ticks st)) (next st)
        | Fulfilled conn =>
            mkState (match conn with Some c => Some c | None => connection st end)
                    (usageHistory st) (isPolling st)
                    (statsInterval st) (initialScanTimer st)
                    ((id, AwaitUsage) :: forget id (ticks st)) (next st)
        end
      else st
  | UsageResult id r now =>
      if suspended id AwaitUsage (ticks st) then
        mkState (connection st)
                (match r with
                 | Fulfilled (Some usage) =>
                     push_usage usage now (usageHistory st)
                 | _ => usageHistory st
                 end)
                (isPolling st) (statsInterval st) (initialScanTimer st)
                (forget id (ticks st)) (next st)
      else st
  end.

Definition run (st : state) (es : list event) : state := fold_left step es st.

Inductive reachable : state -> Prop :=
| reach_init : reachable init
| reach_step st e : reachable st -> reachable (step st e).

(** *** Vocabulary of the properties *)

(** An event together with the clock: a usage answer comes with the reading
    of [new Date()] at which its updater runs, from which the label is made. *)
Inductive timed : Type :=
| TEffectRun
| TCleanup
| TIntervalFired
| TScanTimerFired
| TConnectionResult (id : nat)
    (r : Result (option ProbeAdapter.ConnectionStats))
| TUsageResult (id : nat) (r : Result (option Si.NetworkStats)) (d : Date).

Definition event_at (hc : HourCycle) (t : timed) : event :=
  match t with
  | TEffectRun => EffectRun
  | TCleanup => Cleanup
  | TIntervalFired => IntervalFired
  | TScanTimerFired => ScanTimerFired
  | TConnectionResult id r => ConnectionResult id r
  | TUsageResult id r d => UsageResult id r (toLocaleTimeString hc d)
  end.

(** The readings at which the entries now in the history were appended:
    an applied usage answer adds its reading at the end, and the readings
    are evicted together with their entries. *)
Definition keep (st : state) (kept : list Date) (t : timed) : list Date :=
  match t with
  | TUsageResult id (Fulfilled (Some _)) d =>
      if suspended id AwaitUsage (ticks st) then slice_last 40 (kept ++ [d])
      else kept
  | _ => kept
  end.

Fixpoint kept_readings (hc : HourCycle) (st : state) (kept : list Date)
         (ts : list timed) : list Date :=
  match ts with
  | [] => kept
  | t :: ts' =>
      kept_readings hc (step st (event_at hc t)) (keep st kept t) ts'
  end.

(** All readings fall between two consecutive restarts of the label. *)
Definition same_cycle (hc : HourCycle) (ds : list Date) : Prop :=
  forall d d', In d ds -> In d' ds -> cycle_of hc d = cycle_of hc d'.

(** Labels compare as texts, which for HH:MM:SS is the order of the times of
    day. *)
Definition label_le (a b : string) : Prop := String.leb a b = true.

Definition labels_nondecreasing (h : list UsageSample) : Prop :=
  StronglySorted label_le (map label h).

(** No call of [fetchStats] can start and none is suspended. *)
Definition quiet (st : state) : Prop :=
  isPolling st = false /\ statsInterval st = false /\ ticks st = [].

(** A sample answer, and two polls with a usable answer each, the updaters
    running at the clock readings [d1] and [d2]. *)
Definition some_usage : Si.NetworkStats := Si.mkStats "eth0" 2048 1024.

Definition two_polls (hc : HourCycle) (d1 d2 : Date) : list event :=
  [EffectRun;
   ConnectionResult 0 (Fulfilled None);
   UsageResult 0 (Fulfilled (Some some_usage)) (toLocaleTimeString hc d1);
   IntervalFired;
   ConnectionResult 1 (Fulfilled None);
   UsageResult 1 (Fulfilled (Some some_usage)) (toLocaleTimeString hc d2)].

(** The same two polls with their readings, after a usage answer that
    belongs to no poll and carries a reading of the day after. *)
Definition stray_then_two_polls (d1 d2 : Date) : list timed :=
  [TEffectRun;
   TUsageResult 7 (Fulfilled (Some some_usage)) 90000000%Z;
   TConnectionResult 0 (Fulfilled None);
   TUsageResult 0 (Fulfilled (Some some_usage)) d1;
   TIntervalFired;
   TConnectionResult 1 (Fulfilled None);
   TUsageResult 1 (Fulfilled (Some some_usage)) d2].

(** The first poll is in flight when the cleanup runs; and the same when the
    effect runs again at once, as it does when one of its dependencies has
    changed and the component stays mounted. *)
Definition cleaned_up_in_flight : state := run init [EffectRun; Cleanup].

Definition rerun_in_flight : state := run init [EffectRun; Cleanup; EffectRun].

(** The finite values of a JavaScript number: [m * 2^e] with [|m| < 2^53] and
    [-1074 <= e <= 971].  On them the divisions by 1024 and 128 and the
    product by 8 that [App] performs are exact, up to underflow, which
    [toFixed(1)] turns into 0.0 either way. *)
Definition is_double (x : Q) : Prop :=
  exists m e : Z,
    (Z.abs m < 2 ^ 53)%Z /\ (-1074 <= e <= 971)%Z /\ x == inject_Z m * 2 ^ e.

(** [v] has one decimal place and no such number is nearer to [x]. *)
Definition rounded_to_one_decimal (x v : Q) : Prop :=
  exists n : Z, v == inject_Z n / 10 /\ Qabs (v - x) <= 1 # 20.

(** [n] is [x] rounded to an integer, halves going up. *)
Definition nearest_integer (x : Q) (n : Z) : Prop :=
  inject_Z n - (1 # 2) <= x /\ x < inject_Z n + (1 # 2).

End Aggregator.

(** ** The device scan of the renderer: [scanDevices] (App.tsx, 135-151) *)
Module Scanner.

(** What [getLocalDevices()] resolves to, as the test
    [list && Array.isArray(list)] sees it. *)
Inductive Answer : Type :=
| IsArray (list : list Coordinator.Device)
| NotArray.                       (* null, undefined, or anything else *)

(** The two pieces of React state the scan writes, and the calls of
    [scanDevices] that are suspended at [await getLocalDevices()]. *)
Record state : Type := mkState {
  devices : list Coordinator.Device;
  scanning : bool;
  calls : list nat;
  next : nat
}.

Definition init : state := mkState [] false [] 0.

(** A call carries the value of [scanning] that the callback closed over at
    the render that created it. *)
Inductive event : Type :=
| Call (scanning_seen : bool)
| Settled (id : nat) (r : Result Answer).

Definition step (st : state) (e : event) : state :=
  match e with
  | Call scanning_seen =>
      if scanning_seen then st
      else mkState (devices st) true (next st :: calls st) (S (next st))
  | Settled id r =>
      if mem id (calls st) then
        mkState (match r with
                 | Fulfilled (IsArray list) => list
                 | Fulfilled NotArray => devices st   (* "No devices returned" *)
                 | Rejected => devices st             (* "Scanning failed" *)
                 end)
                false (drop id (calls st)) (next st)
      else st
  end.

Definition run (st : state) (es : list event) : state := fold_left step es st.

(** The handler's return value travels back as the answer of the call. *)
Definition deliver (id : nat) (st : state) (rs : list Coordinator.response)
  : state :=
  fold_left (fun u r => step u (Settled id (Fulfilled (IsArray (snd r)))))
            rs st.

(** One scan from the button or the timer to the table: the renderer calls,
    the main process runs the invocation to its end, the answer is shown. *)
Definition scan_once (tie : bool) (main : Coordinator.state)
           (d : Coordinator.Discovery) (ui : state)
  : Coordinator.state * state :=
  let ui1 := step ui (Call false) in
  let out := Coordinator.get_local_devices tie main d in
  (fst out, deliver (next ui) ui1 (snd out)).

End Scanner.

(** ** What [App] derives for display (App.tsx, 55-91, 211-213, 253-268) *)
Module Presentation.

(** [Math.min] on two numbers. *)
Definition Math_min (x y : Q) : Q := if Qle_bool x y then x else y.

Section CircularGauge.

(** [2 * Math.PI * radius], the length of the ring. *)
Variable circumference : Q.

Definition cappedValue (value max : Q) : Q := Math_min value max.

(** The part of the ring left unpainted, in exact arithmetic. *)
Definition offset (value max : Q) : Q :=
  circumference - (cappedValue value max / max) * circumference.

End CircularGauge.

(** [lastUsage]: the [rx] and [tx] of the newest sample, or of the literal
    [{ rx: 0, tx: 0 }] while the history is empty. *)
Definition lastUsage (usageHistory : list Aggregator.UsageSample) : Q * Q :=
  match nth_error usageHistory (List.length usageHistory - 1) with
  | Some s => (Aggregator.rx s, Aggregator.tx s)
  | None => (0, 0)
  end.

Definition dl (usageHistory : list Aggregator.UsageSample) : Aggregator.Speed :=
  Aggregator.formatSpeed (fst (lastUsage usageHistory) * 1024).

Definition ul (usageHistory : list Aggregator.UsageSample) : Aggregator.Speed :=
  Aggregator.formatSpeed (snd (lastUsage usageHistory) * 1024).

(** [connection?.field || fallback] on a text field that may be absent. *)
Definition textOr (v : option string) (fallback : string) : string :=
  match v with
  | Some s => ProbeAdapter.strOr s fallback
  | None => fallback
  end.

Definition show_ssid (connection : option ProbeAdapter.ConnectionStats)
  : string :=
  textOr (option_map ProbeAdapter.ssid connection) "Searching...".

(** [connection?.status === 'up' ? 'Online' : 'Offline']. *)
Definition show_status (connection : option ProbeAdapter.ConnectionStats)
  : string :=
  match connection with
  | Some c => if String.eqb (ProbeAdapter.status c) "up" then "Online"
              else "Offline"
  | None => "Offline"
  end.

End Presentation.

(** ** Vocabulary of the further properties *)

(** The invocations a list of answers is addressed to. *)
Definition answered (rs : list Coordinator.response) : list nat :=
  map fst rs.

(** Every suspended invocation has a number already given out. *)
Definition numbered (st : Coordinator.state) : Prop :=
  forall id, In id (Coordinator.awaiting st) -> (id < Coordinator.next st)%nat.

(** The interface list holds a candidate for [select_interface]. *)
Definition qualifies (defaultIfaceName : string) (i : Si.NetworkInterface)
  : Prop :=
  Si.iface i = defaultIfaceName
  \/ (Si.operstate i = "up"%string /\ Si.ip4 i <> EmptyString).

(** A provider set and a trace used to instantiate the further properties. *)
Definition wifi_home : Wifi.Connection :=
  Wifi.mkConnection "HomeNet" 72 "WPA2".

Definition providers_wifi_up : ProbeAdapter.Providers :=
  ProbeAdapter.mkProviders
    (Fulfilled "wlan0"%string)
    (Fulfilled [ProbeAdapter.eth0; ProbeAdapter.wlan0])
    (Fulfilled (Some [wifi_home]))
    ProbeAdapter.no_stats.

(** * Properties *)

(** ** Identifier lists *)

Lemma mem_In id l : mem id l = true <-> In id l.
Proof.
  unfold mem. rewrite existsb_exists. split.
  - intros [x [Hin Heq]]. apply Nat.eqb_eq in Heq. now subst.
  - intros Hin. exists id. split; [assumption | apply Nat.eqb_refl].
Qed.

Lemma mem_cons_same id l : mem id (id :: l) = true.
Proof. unfold mem. simpl. now rewrite Nat.eqb_refl. Qed.

Lemma drop_cons_same id l : drop id (id :: l) = drop id l.
Proof. unfold drop. simpl. now rewrite Nat.eqb_refl. Qed.

Lemma mem_drop_same id l : mem id (drop id l) = false.
Proof.
  destruct (mem id (drop id l)) eqn:E; [|reflexivity].
  apply mem_In in E. unfold drop in E. apply filter_In in E.
  destruct E as [_ E]. rewrite Nat.eqb_refl in E. discriminate.
Qed.

Lemma In_drop_other id j l : j <> id -> In j l -> In j (drop id l).
Proof.
  intros Hne Hin. unfold drop. apply filter_In. split; [assumption|].
  apply negb_true_iff. now apply Nat.eqb_neq.
Qed.

(** ** The scan guard *)
Section CoordinatorFacts.

Import Coordinator.

Lemma mem_single id id0 : mem id [id0] = true -> id = id0.
Proof. intros H. apply mem_In in H. destruct H as [H|[]]. now symmetry. Qed.

Lemma not_mem_single id id0 : mem id [id0] = false -> id0 <> id.
Proof.
  intros H E. subst. rewrite mem_cons_same in H. discriminate.
Qed.

(** The handler resumes: the guard is free afterwards and nobody is left
    suspended. *)
Lemma inv_after_resume st id f t n :
  guard_inv st -> mem id (awaiting st) = true ->
  guard_inv (mkState false (drop id (awaiting st)) f t n).
Proof.
  unfold guard_inv. intros H Hm. simpl.
  destruct (isScanning st).
  - destruct H as [id0 [Ha _]]. rewrite Ha in *.
    apply mem_single in Hm. subst. now rewrite drop_cons_same.
  - rewrite H in Hm. discriminate.
Qed.

(** A late settlement of somebody else's promise changes nothing for the
    suspended invocation. *)
Lemma inv_after_late_find st id :
  guard_inv st -> mem id (awaiting st) = false ->
  guard_inv (mkState (isScanning st) (awaiting st) (drop id (finds st))
                     (timers st) (next st)).
Proof.
  unfold guard_inv. intros H Hm. simpl.
  destruct (isScanning st); [|exact H].
  destruct H as [id0 [Ha [Hf Ht]]]. exists id0. rewrite Ha in Hm.
  apply not_mem_single in Hm. repeat split; trivial.
  now apply In_drop_other.
Qed.

Lemma inv_after_late_timer st id :
  guard_inv st -> mem id (awaiting st) = false ->
  guard_inv (mkState (isScanning st) (awaiting st) (finds st)
                     (drop id (timers st)) (next st)).
Proof.
  unfold guard_inv. intros H Hm. simpl.
  destruct (isScanning st); [|exact H].
  destruct H as [id0 [Ha [Hf Ht]]]. exists id0. rewrite Ha in Hm.
  apply not_mem_single in Hm. repeat split; trivial.
  now apply In_drop_other.
Qed.

Lemma step_inv st e : guard_inv st -> guard_inv (fst (step st e)).
Proof.
  intros H. destruct e as [|id devs|id|id]; unfold step, resume; simpl.
  - unfold guard_inv in *. destruct (isScanning st) eqn:Hs; simpl.
    + exact H.
    + exists (next st). rewrite H. auto with datatypes.
  - destruct (mem id (finds st)); [|exact H].
    destruct (mem id (awaiting st)) eqn:Hm; simpl.
    + now apply (inv_after_resume st).
    + now apply inv_after_late_find.
  - destruct (mem id (finds st)); [|exact H].
    destruct (mem id (awaiting st)) eqn:Hm; simpl.
    + now apply (inv_after_resume st).
    + now apply inv_after_late_find.
  - destruct (mem id (timers st)); [|exact H].
    destruct (mem id (awaiting st)) eqn:Hm; simpl.
    + now apply (inv_after_resume st).
    + now apply inv_after_late_timer.
Qed.

Lemma reachable_inv st : reachable st -> guard_inv st.
Proof.
  induction 1 as [|st e _ IH].
  - reflexivity.
  - now apply step_inv.
Qed.

(** A free guard lets the invocation through: it takes the guard, starts
    [find()] and the timer, and suspends. *)
Lemma invoke_free st :
  isScanning st = false ->
  step st Invoke =
  (mkState true (next st :: awaiting st) (next st :: finds st)
           (next st :: timers st) (S (next st)), None).
Proof. intros H. simpl. now rewrite H. Qed.

(** One full run from a free guard, find() settling first with [r]. *)
Lemma run_find_first st r ev :
  isScanning st = false ->
  (ev = match r with
        | Fulfilled devs => FindFulfilled (next st) devs
        | Rejected => FindRejected (next st)
        end) ->
  exists st',
    run st [Invoke; ev; TimerFired (next st)] =
    (st', [(next st, match r with Fulfilled devs => devs | Rejected => [] end)])
    /\ isScanning st' = false.
Proof.
  intros H ->. unfold run. rewrite (invoke_free st H).
  destruct r as [devs|]; unfold step, resume; simpl;
    rewrite !Nat.eqb_refl; simpl; rewrite !Nat.eqb_refl; simpl;
    fold (drop (next st) (awaiting st)); rewrite mem_drop_same;
    eexists; split; reflexivity.
Qed.

(** One full run from a free guard, the timer firing first; whatever find()
    does afterwards is ignored. *)
Lemma run_timer_first st late :
  isScanning st = false ->
  (late = [] \/ (exists devs, late = [FindFulfilled (next st) devs])
   \/ late = [FindRejected (next st)]) ->
  exists st',
    run st (Invoke :: TimerFired (next st) :: late) = (st', [(next st, [])])
    /\ isScanning st' = false.
Proof.
  intros H Hl. unfold run. rewrite (invoke_free st H).
  destruct Hl as [->|[[devs ->]| ->]]; unfold step, resume; simpl;
    rewrite !Nat.eqb_refl; simpl; rewrite ?Nat.eqb_refl; simpl;
    fold (drop (next st) (awaiting st)); rewrite ?mem_drop_same;
    eexists; split; reflexivity.
Qed.

Lemma find_first_early tie t : (t < SCAN_TIMEOUT)%Z -> find_first tie t = true.
Proof.
  intros H. unfold find_first.
  destruct (Z.eqb_spec t SCAN_TIMEOUT); [lia|]. now apply Z.ltb_lt.
Qed.

Lemma find_first_late tie t : (SCAN_TIMEOUT < t)%Z -> find_first tie t = false.
Proof.
  intros H. unfold find_first.
  destruct (Z.eqb_spec t SCAN_TIMEOUT); [lia|]. apply Z.ltb_ge. lia.
Qed.

(** C1.  The guard is released on every exit path of [get-local-devices].
    From any reachable state of the main process: if the guard is free, an
    invocation followed to its end answers with the devices when [find()]
    resolves before the 15000 ms deadline, and with the empty list when
    [find()] rejects, when it takes longer than 15000 ms and when it never
    settles, and the guard is free again afterwards in all four cases.  If the
    guard is held, exactly one invocation is suspended, its timer is still
    pending, and each way its race can settle ([find()] resolving, [find()]
    rejecting, the timer firing) completes it in that very step with the guard
    free: no lock-out is permanent. *)
Theorem scan_guard_released_on_every_exit (tie : bool) (st : state) :
  reachable st ->
  (isScanning st = false ->
     (forall t devs, (t < SCAN_TIMEOUT)%Z ->
        exists st',
          get_local_devices tie st (Resolves t devs)
          = (st', [(next st, devs)]) /\ isScanning st' = false)
     /\ (forall t,
        exists st',
          get_local_devices tie st (Fails t) = (st', [(next st, [])])
          /\ isScanning st' = false)
     /\ (forall t devs, (SCAN_TIMEOUT < t)%Z ->
        exists st',
          get_local_devices tie st (Resolves t devs) = (st', [(next st, [])])
          /\ isScanning st' = false)
     /\ (exists st',
          get_local_devices tie st Hangs = (st', [(next st, [])])
          /\ isScanning st' = false))
  /\
  (isScanning st = true ->
     exists id,
       awaiting st = [id] /\ In id (timers st)
       /\ (forall devs, exists st',
            step st (FindFulfilled id devs) = (st', Some (id, devs))
            /\ isScanning st' = false)
       /\ (exists st',
            step st (FindRejected id) = (st', Some (id, []))
            /\ isScanning st' = false)
       /\ (exists st',
            step st (TimerFired id) = (st', Some (id, []))
            /\ isScanning st' = false)).
Proof.
  intros Hr. split; intros Hs.
  - repeat split.
    + intros t devs Ht. unfold get_local_devices, schedule.
      rewrite (find_first_early tie Ht).
      now apply (run_find_first st (Fulfilled devs)).
    + intros t. unfold get_local_devices, schedule.
      destruct (find_first tie t).
      * now apply (run_find_first st (@Rejected (list Device))).
      * apply run_timer_first; auto.
    + intros t devs Ht. unfold get_local_devices, schedule.
      rewrite (find_first_late tie Ht).
      apply run_timer_first; [assumption|]. right; left. now exists devs.
    + unfold get_local_devices, schedule. apply run_timer_first; auto.
  - pose proof (reachable_inv Hr) as Hi. unfold guard_inv in Hi.
    rewrite Hs in Hi. destruct Hi as [id [Ha [Hf Ht]]].
    exists id. apply mem_In in Hf. apply mem_In in Ht as Ht'.
    repeat split; trivial; try intros devs; unfold step, resume; simpl;
      rewrite ?Hf, ?Ht', Ha, mem_cons_same; eexists; split; reflexivity.
Qed.

(** The theorem at the initial state, for a [find()] that never settles, and
    at the state where invocation 0 holds the guard. *)
Lemma scan_guard_released_on_every_exit_witness :
  (exists st',
      get_local_devices true init Hangs = (st', [(0%nat, [])])
      /\ isScanning st' = false)
  /\ (exists st',
        step (fst (step init Invoke)) (TimerFired 0) = (st', Some (0%nat, []))
        /\ isScanning st' = false).
Proof.
  split.
  - destruct (scan_guard_released_on_every_exit true reach_init) as [H _].
    destruct (H eq_refl) as [_ [_ [_ Hh]]]. exact Hh.
  - destruct (scan_guard_released_on_every_exit true
                (reach_step Invoke reach_init)) as [_ H].
    destruct (H eq_refl) as [id [Ha [_ [_ [_ Ht]]]]].
    simpl in Ha. injection Ha as <-. exact Ht.
Defined.

Lemma In_drop_inv id j l : In j (drop id l) -> In j l /\ j <> id.
Proof.
  unfold drop. intros H. apply filter_In in H. destruct H as [Hin Hne].
  split; [exact Hin|]. apply negb_true_iff in Hne. now apply Nat.eqb_neq.
Qed.

Lemma finds_inv_settle st id f :
  finds_inv st -> (forall j, In j f -> In j (finds st) /\ j <> id) ->
  finds_inv (mkState false (drop id (awaiting st)) f (timers st) (next st)).
Proof.
  intros H Hf j Hj. simpl. destruct (Hf j Hj) as [Hin Hne].
  destruct (H j Hin) as [Hlt [Ha|Ht]].
  - split; [exact Hlt|]. left. now apply In_drop_other.
  - split; [exact Hlt|]. now right.
Qed.

Lemma step_finds_inv st e : finds_inv st -> finds_inv (fst (step st e)).
Proof.
  intros H. destruct e as [|id devs|id|id]; unfold step, resume; simpl.
  - destruct (isScanning st); simpl; intros j Hj; simpl in *.
    + destruct (H j Hj) as [Hlt Hc]. split; [lia | exact Hc].
    + destruct Hj as [<-|Hj].
      * split; [lia|]. left. now left.
      * destruct (H j Hj) as [Hlt [Ha|Ht]].
        -- split; [lia|]. left. now right.
        -- split; [lia|]. right. intros [E|Hin]; [lia | contradiction].
  - destruct (mem id (finds st)); [|exact H].
    destruct (mem id (awaiting st)); simpl.
    + apply finds_inv_settle; [exact H|]. intros j. apply In_drop_inv.
    + intros j Hj. simpl in *. apply In_drop_inv in Hj. now apply H.
  - destruct (mem id (finds st)); [|exact H].
    destruct (mem id (awaiting st)); simpl.
    + apply finds_inv_settle; [exact H|]. intros j. apply In_drop_inv.
    + intros j Hj. simpl in *. apply In_drop_inv in Hj. now apply H.
  - destruct (mem id (timers st)); [|exact H].
    destruct (mem id (awaiting st)); simpl; intros j Hj; simpl in *.
    + destruct (H j Hj) as [Hlt Hc]. split; [exact Hlt|].
      destruct (Nat.eq_dec j id) as [->|Hne].
      * right. intros Hin. apply In_drop_inv in Hin. tauto.
      * destruct Hc as [Ha|Ht].
        -- left. now apply In_drop_other.
        -- right. intros Hin. apply In_drop_inv in Hin. tauto.
    + destruct (H j Hj) as [Hlt Hc]. split; [exact Hlt|].
      destruct Hc as [Ha|Ht]; [now left|].
      right. intros Hin. apply In_drop_inv in Hin. tauto.
Qed.

Lemma reachable_finds_inv st : reachable st -> finds_inv st.
Proof.
  induction 1 as [|st e _ IH].
  - intros id [].
  - now apply step_finds_inv.
Qed.

(** C2, as the handler has it.  In every reachable state at most one
    invocation is inside the guarded region, and an invocation that arrives
    while the guard is held is answered with the empty list in the step of
    its arrival: it is not suspended, and it starts neither a [find()] call
    nor a timer.  The [find()] calls themselves may overlap, but only in one
    way: a call in flight that is not the suspended invocation's has
    outlived its timer, that is, its scan timed out and left it running. *)
Theorem concurrent_scan_request_returns_empty (st : state) :
  reachable st ->
  (List.length (awaiting st) <= 1)%nat
  /\ (isScanning st = true ->
      step st Invoke =
      (mkState true (awaiting st) (finds st) (timers st) (S (next st)),
       Some (next st, [])))
  /\ (forall id, In id (finds st) ->
        In id (awaiting st) \/ ~ In id (timers st)).
Proof.
  intros Hr. split; [|split].
  - pose proof (reachable_inv Hr) as Hi. unfold guard_inv in Hi.
    destruct (isScanning st).
    + destruct Hi as [id [-> _]]. simpl. lia.
    + rewrite Hi. simpl. lia.
  - intros Hs. simpl. now rewrite Hs.
  - intros id Hid. exact (proj2 (reachable_finds_inv Hr id Hid)).
Qed.

(** The theorem at the state where invocation 0 holds the guard: invocation 1
    is turned away at once, and the one [find()] call in flight is that of
    invocation 0. *)
Lemma concurrent_scan_request_returns_empty_witness :
  reachable (fst (step init Invoke))
  /\ step (fst (step init Invoke)) Invoke =
     (mkState true [0%nat] [0%nat] [0%nat] 2, Some (1%nat, []))
  /\ (In 0%nat (awaiting (fst (step init Invoke)))
      \/ ~ In 0%nat (timers (fst (step init Invoke)))).
Proof.
  split; [apply reach_step, reach_init|].
  destruct (concurrent_scan_request_returns_empty
              (reach_step Invoke reach_init)) as (_ & Hturn & Hfinds).
  split; [exact (Hturn eq_refl)|].
  apply Hfinds. simpl. now left.
Defined.

(** C2, as the specification words it, fails: the guard covers the handler,
    not the [find()] call.  After scan 0 has timed out, its call is still
    running when scan 1 starts its own, so two of them are in flight under
    one held guard. *)
Lemma abandoned_find_outlives_the_guard :
  isScanning (fst (run init [Invoke; TimerFired 0; Invoke])) = true
  /\ awaiting (fst (run init [Invoke; TimerFired 0; Invoke])) = [1%nat]
  /\ finds (fst (run init [Invoke; TimerFired 0; Invoke])) = [1%nat; 0%nat]
  /\ List.length (finds (fst (run init [Invoke; TimerFired 0; Invoke])))
     = 2%nat.
Proof. repeat split. Qed.

End CoordinatorFacts.

(** ** The probe adapter *)
Section ProbeFacts.

Import ProbeAdapter.

Lemma find_all_false {A : Type} (f : A -> bool) (l : list A) :
  (forall x, In x l -> f x = false) -> find f l = None.
Proof.
  induction l as [|a l IH]; intros H; simpl; [reflexivity|].
  rewrite (H a (or_introl eq_refl)). apply IH.
  intros x Hx. apply H. now right.
Qed.

Lemma select_interface_none d l :
  (forall i, In i l -> Si.iface i <> d) ->
  (forall i, In i l ->
     ~ (Si.operstate i = "up"%string /\ Si.ip4 i <> EmptyString)) ->
  select_interface d l = None.
Proof.
  intros Hname Hup. unfold select_interface.
  rewrite find_all_false.
  - simpl. apply find_all_false. intros i Hi.
    destruct (String.eqb_spec (Si.operstate i) "up") as [Eu|Eu]; simpl;
      [|reflexivity].
    destruct (String.eqb_spec (Si.ip4 i) EmptyString) as [Ei|Ei]; simpl;
      [reflexivity|].
    exfalso. apply (Hup i Hi). now split.
  - intros i Hi. apply String.eqb_neq. now apply Hname.
Qed.

(** C4.  When both primary queries answer and no interface qualifies (none
    carries the default interface's name and none is up with a non-empty
    address), [get-active-connection] returns an object, not null, with
    ssid "No Connection", type "none", status "down", ip4 "0.0.0.0" and
    speed 0. *)
Theorem no_interface_gives_disconnected_snapshot
        (p : Providers) (d : string) (l : list Si.NetworkInterface) :
  networkInterfaceDefault p = Fulfilled d ->
  networkInterfaces p = Fulfilled l ->
  (forall i, In i l -> Si.iface i <> d) ->
  (forall i, In i l ->
     ~ (Si.operstate i = "up"%string /\ Si.ip4 i <> EmptyString)) ->
  exists c,
    get_active_connection p = Some c
    /\ ssid c = "No Connection"%string /\ type c = "none"%string
    /\ status c = "down"%string /\ ip4 c = "0.0.0.0"%string /\ speed c = 0.
Proof.
  intros Hd Hl Hname Hup. exists disconnected.
  unfold get_active_connection. rewrite Hd, Hl.
  rewrite (@select_interface_none d l Hname Hup).
  repeat split; reflexivity.
Qed.

(** The theorem where the interface list is empty. *)
Lemma no_interface_gives_disconnected_snapshot_witness :
  exists c,
    get_active_connection providers_without_interface = Some c
    /\ ssid c = "No Connection"%string /\ type c = "none"%string
    /\ status c = "down"%string /\ ip4 c = "0.0.0.0"%string /\ speed c = 0.
Proof.
  apply (@no_interface_gives_disconnected_snapshot
           providers_without_interface EmptyString []);
    try reflexivity; intros i [].
Defined.

(** C5.  On a wireless interface whose [getCurrentConnections()] query
    fails, [get-active-connection] still returns an object: its ssid is the
    interface name, and signal_level and security keep their initial values
    100 and "N/A". *)
Theorem wifi_query_failure_keeps_defaults
        (p : Providers) (d : string) (l : list Si.NetworkInterface)
        (i : Si.NetworkInterface) :
  networkInterfaceDefault p = Fulfilled d ->
  networkInterfaces p = Fulfilled l ->
  select_interface d l = Some i ->
  Si.type i = "wireless"%string ->
  getCurrentConnections p = Rejected ->
  exists c,
    get_active_connection p = Some c
    /\ ssid c = Si.iface i
    /\ signal_level c = Some 100 /\ security c = Some "N/A"%string
    /\ iface c = Some (Si.iface i).
Proof.
  intros Hd Hl Hsel Hty Hw. unfold get_active_connection.
  rewrite Hd, Hl, Hsel, Hty, Hw. simpl.
  eexists. split; [reflexivity|]. repeat split; reflexivity.
Qed.

Lemma wifi_query_failure_keeps_defaults_witness :
  exists c,
    get_active_connection providers_wifi_down = Some c
    /\ ssid c = "wlan0"%string
    /\ signal_level c = Some 100 /\ security c = Some "N/A"%string
    /\ iface c = Some "wlan0"%string.
Proof.
  apply (@wifi_query_failure_keeps_defaults
           providers_wifi_down "wlan0" [eth0; wlan0] wlan0); reflexivity.
Defined.

(** C10.  When the selected interface is not wireless, the ssid of the
    returned object is the fixed text "Ethernet Connection", whatever the
    interface is called. *)
Theorem non_wireless_ssid_is_ethernet_connection
        (p : Providers) (d : string) (l : list Si.NetworkInterface)
        (i : Si.NetworkInterface) :
  networkInterfaceDefault p = Fulfilled d ->
  networkInterfaces p = Fulfilled l ->
  select_interface d l = Some i ->
  Si.type i <> "wireless"%string ->
  exists c,
    get_active_connection p = Some c
    /\ ssid c = "Ethernet Connection"%string
    /\ iface c = Some (Si.iface i).
Proof.
  intros Hd Hl Hsel Hty. unfold get_active_connection.
  rewrite Hd, Hl, Hsel.
  apply String.eqb_neq in Hty. rewrite Hty.
  eexists. split; [reflexivity|]. split; reflexivity.
Qed.

Lemma non_wireless_ssid_is_ethernet_connection_witness :
  exists c,
    get_active_connection providers_wired = Some c
    /\ ssid c = "Ethernet Connection"%string
    /\ iface c = Some "eth0"%string.
Proof.
  apply (@non_wireless_ssid_is_ethernet_connection
           providers_wired "eth0" [eth0; wlan0] eth0);
    try reflexivity; discriminate.
Defined.

Lemma Qgtb_lt x y : Qgtb x y = true <-> y < x.
Proof.
  unfold Qgtb. rewrite negb_true_iff. split.
  - intros H. apply Qnot_le_lt. intros Hle.
    apply Qle_bool_iff in Hle. congruence.
  - intros H. destruct (Qle_bool x y) eqn:E; [|reflexivity].
    apply Qle_bool_iff in E. exfalso. now apply (Qlt_not_le y x).
Qed.

Lemma traffic_test s :
  (Qgtb (Si.rx_sec s) 0 || Qgtb (Si.tx_sec s) 0 = true) <-> has_traffic s.
Proof.
  unfold has_traffic. rewrite orb_true_iff, !Qgtb_lt. reflexivity.
Qed.

Lemma find_first_match {A : Type} (f : A -> bool) pre s post :
  f s = true -> (forall x, In x pre -> f x = false) ->
  find f (pre ++ s :: post) = Some s.
Proof.
  intros Hs. induction pre as [|a pre IH]; intros Hpre; simpl.
  - now rewrite Hs.
  - rewrite (Hpre a (or_introl eq_refl)). apply IH.
    intros x Hx. apply Hpre. now right.
Qed.

Lemma no_traffic_test s :
  ~ has_traffic s -> Qgtb (Si.rx_sec s) 0 || Qgtb (Si.tx_sec s) 0 = false.
Proof.
  intros H. destruct (Qgtb (Si.rx_sec s) 0 || Qgtb (Si.tx_sec s) 0) eqn:E;
    [|reflexivity].
  exfalso. apply H. now apply traffic_test.
Qed.

Lemma find_agree {A : Type} (f g : A -> bool) (l : list A) :
  (forall x, In x l -> f x = g x) -> find f l = find g l.
Proof.
  induction l as [|a l IH]; intros H; simpl; [reflexivity|].
  rewrite <- (H a (or_introl eq_refl)).
  destruct (f a); [reflexivity|]. apply IH.
  intros x Hx. apply H. now right.
Qed.

(** On a rate that is not negative, above zero and nonzero are one test. *)
Lemma positive_is_nonzero x : 0 <= x -> Qgtb x 0 = negb (Qeq_bool x 0).
Proof.
  intros H0. destruct (Qeq_bool x 0) eqn:E; simpl.
  - apply Qeq_bool_iff in E. unfold Qgtb. rewrite negb_false_iff.
    apply Qle_bool_iff. rewrite E. discriminate.
  - apply Qgtb_lt. apply Qeq_bool_neq in E.
    destruct (Qlt_le_dec 0 x) as [Hlt|Hle]; [exact Hlt|].
    exfalso. apply E. now apply Qle_antisym.
Qed.

Lemma fallback_as_worded allStats :
  (forall x, In x allStats -> rates_nonneg x) ->
  orElse (find (fun s => Qgtb (Si.rx_sec s) 0 || Qgtb (Si.tx_sec s) 0)
               allStats)
         (hd_error allStats)
  = first_nonzero_or_first allStats.
Proof.
  intros H. unfold first_nonzero_or_first. f_equal.
  apply find_agree. intros x Hx. destruct (H x Hx) as [Hr Ht].
  now rewrite (positive_is_nonzero Hr), (positive_is_nonzero Ht).
Qed.

(** C6.  [get-network-usage] returns null when the query for the default
    interface fails.  Otherwise it returns the first entry of the default
    interface's statistics when there is one.  When that array is null or
    empty it turns to the statistics of all interfaces and returns the first
    entry whose receive or transmit rate is above zero; when no entry has
    one, the first entry; when there is none, null.  Rates being what they
    are, never negative, that is the first entry with a nonzero receive or
    transmit rate, else the first entry, else null.  A rejected query, and a
    null array of all statistics, give null: the handler is a total function
    and never throws. *)
Theorem network_usage_fallback_chain (p : Providers) :
  (networkInterfaceDefault p = Rejected -> get_network_usage p = None)
  /\ (forall d,
  networkInterfaceDefault p = Fulfilled d ->
  (forall s0 rest,
      networkStats p (Some d) = Fulfilled (Some (s0 :: rest)) ->
      get_network_usage p = Some s0)
  /\ (networkStats p (Some d) = Fulfilled None
      \/ networkStats p (Some d) = Fulfilled (Some []) ->
      (forall pre s post,
          networkStats p None = Fulfilled (Some (pre ++ s :: post)) ->
          has_traffic s -> (forall x, In x pre -> ~ has_traffic x) ->
          get_network_usage p = Some s)
      /\ (forall allStats,
          networkStats p None = Fulfilled (Some allStats) ->
          (forall x, In x allStats -> ~ has_traffic x) ->
          get_network_usage p = hd_error allStats)
      /\ (forall allStats,
          networkStats p None = Fulfilled (Some allStats) ->
          (forall x, In x allStats -> rates_nonneg x) ->
          get_network_usage p = first_nonzero_or_first allStats)
      /\ (networkStats p None = Fulfilled (Some []) ->
          get_network_usage p = None)
      /\ (networkStats p None = Rejected
          \/ networkStats p None = Fulfilled None ->
          get_network_usage p = None))
  /\ (networkStats p (Some d) = Rejected -> get_network_usage p = None)).
Proof.
  split.
  { intros Hd. unfold get_network_usage. now rewrite Hd. }
  intros d Hd. unfold get_network_usage. rewrite Hd.
  split; [|split].
  - intros s0 rest ->. reflexivity.
  - intros H. split; [|split; [|split; [|split]]].
    + intros pre s post Hall Hs Hpre.
      destruct H as [-> | ->]; rewrite Hall;
        (rewrite find_first_match;
         [reflexivity | now apply traffic_test
          | intros x Hx; now apply no_traffic_test, Hpre]).
    + intros allStats Hall Hnone.
      destruct H as [-> | ->]; rewrite Hall;
        (rewrite find_all_false;
         [reflexivity | intros x Hx; now apply no_traffic_test, Hnone]).
    + intros allStats Hall Hnn.
      destruct H as [-> | ->]; rewrite Hall; now apply fallback_as_worded.
    + intros Hall. destruct H as [-> | ->]; rewrite Hall; reflexivity.
    + intros Hall.
      destruct H as [-> | ->]; destruct Hall as [-> | ->]; reflexivity.
  - intros ->. reflexivity.
Qed.

(** The theorem on statistics whose first entry is idle: the handler passes
    over it and returns the busy one, the first with a nonzero rate. *)
Lemma network_usage_fallback_chain_witness :
  get_network_usage providers_idle_first = Some stats_eth0
  /\ get_network_usage providers_idle_first
     = first_nonzero_or_first [stats_idle; stats_eth0]
  /\ get_network_usage
       (mkProviders Rejected (Fulfilled []) Rejected no_stats) = None.
Proof.
  destruct (network_usage_fallback_chain providers_idle_first)
    as [_ H].
  destruct (H "eth0"%string eq_refl) as [_ [H1 _]].
  destruct (H1 (or_intror eq_refl)) as (Hfirst & _ & Hword & _).
  split; [|split].
  - apply (Hfirst [stats_idle] stats_eth0 []).
    + reflexivity.
    + left. reflexivity.
    + intros x [<-|[]] [H0|H0]; discriminate H0.
  - apply Hword; [reflexivity|].
    intros x [<-|[<-|[]]]; split; discriminate.
  - apply (proj1 (network_usage_fallback_chain
                    (mkProviders Rejected (Fulfilled []) Rejected no_stats))).
    reflexivity.
Defined.

End ProbeFacts.

(** ** Unit conversion *)
Section ConversionFacts.

Import Aggregator.

Lemma Qle_bool_false x y : y < x -> Qle_bool x y = false.
Proof.
  intros H. destruct (Qle_bool x y) eqn:E; [|reflexivity].
  apply Qle_bool_iff in E. exfalso. now apply (Qlt_not_le y x).
Qed.

Lemma Qle_bool_true x y : x <= y -> Qle_bool x y = true.
Proof. apply Qle_bool_iff. Qed.

Lemma toFixed1_small x :
  0 <= x -> x < 10 ^ 21 -> rounded_to_one_decimal x (toFixed 1 x).
Proof.
  intros H0 Hlt. unfold toFixed.
  assert (Ha : Qabs x == x) by now apply Qabs_pos.
  rewrite Qle_bool_false by now rewrite Ha.
  rewrite (Qle_bool_true H0).
  change (inject_Z (10 ^ Z.of_nat 1)) with 10%Q.
  set (n := Qfloor (Qabs x * 10 + (1 # 2))).
  exists n. split; [reflexivity|].
  pose proof (Qfloor_le (Qabs x * 10 + (1 # 2))) as Hlo.
  pose proof (Qlt_floor (Qabs x * 10 + (1 # 2))) as Hhi.
  fold n in Hlo, Hhi. rewrite inject_Z_plus in Hhi.
  rewrite Ha in Hlo, Hhi.
  apply Qabs_diff_Qle_condition.
  change (inject_Z 1) with 1 in Hhi.
  clearbody n. clear Hlt Ha. generalize dependent (inject_Z n). intros q Hlo Hhi. unfold Qdiv. change (/ 10) with (1 # 10). split; lra.
Qed.

Lemma huge_double_is_integer b :
  is_double b -> 10 ^ 21 <= b / 1024 / 1024 ->
  exists k : Z, b / 1024 / 1024 == inject_Z k.
Proof.
  intros (m & e & Hm & He & Hb) Hbig.
  destruct (Z_lt_le_dec e 20) as [Hlt|Hge].
  - exfalso.
    assert (Hp : 2 ^ e <= 2 ^ 19).
    { apply Qpower_le_compat_l; [lia | discriminate]. }
    assert (Hp0 : 0 < 2 ^ e) by (apply Qpower_0_lt; reflexivity).
    assert (Hmq : inject_Z m < inject_Z (2 ^ 53)).
    { rewrite <- Zlt_Qlt. lia. }
    change (2 ^ 19) with 524288%Q in Hp.
    change (inject_Z (2 ^ 53)) with 9007199254740992%Q in Hmq.
    change (10 ^ 21) with 1000000000000000000000%Q in Hbig.
    rewrite Hb in Hbig. clear Hb.
    unfold Qdiv in Hbig. change (/ 1024) with (1 # 1024) in Hbig.
    set (q := inject_Z m) in *. set (p := 2 ^ e) in *.
    clearbody q p.
    destruct (Qlt_le_dec q 0) as [Hneg|Hpos]; [nra|].
    assert (H1 : q * p <= 9007199254740992 * p).
    { apply Qmult_le_compat_r; lra. }
    lra.
  - exists (m * 2 ^ (e - 20))%Z.
    rewrite Hb. replace e with ((e - 20) + 20)%Z at 1 by ring.
    rewrite Qpower_plus by discriminate.
    rewrite inject_Z_mult, Zpower_Qpower by lia.
    change (inject_Z 2) with 2.
    change (2 ^ 20) with 1048576%Q.
    field.
Qed.

Lemma formatSpeed_zero b : b == 0 -> formatSpeed b = mkSpeed 0 "B/s".
Proof.
  intros H. unfold formatSpeed.
  apply Qeq_bool_iff in H. now rewrite H.
Qed.

Lemma formatSpeed_kilo b :
  0 <= b -> ~ b == 0 -> b / 1024 < 1000 ->
  unit (formatSpeed b) = "KB/s"%string
  /\ rounded_to_one_decimal (b / 1024) (val (formatSpeed b)).
Proof.
  intros H0 Hnz Hk. unfold formatSpeed.
  destruct (Qeq_bool b 0) eqn:Ez.
  { apply Qeq_bool_iff in Ez. contradiction. }
  rewrite (Qle_bool_false Hk). simpl. split; [reflexivity|].
  unfold parseFloat. apply toFixed1_small.
  - unfold Qdiv. change (/ 1024) with (1 # 1024). lra.
  - change (10 ^ 21) with 1000000000000000000000%Q. lra.
Qed.

Lemma formatSpeed_mega b :
  is_double b -> 1000 <= b / 1024 ->
  unit (formatSpeed b) = "MB/s"%string
  /\ rounded_to_one_decimal (b / 1024 / 1024) (val (formatSpeed b)).
Proof.
  intros Hd Hk. unfold formatSpeed.
  assert (Hpos : 0 < b).
  { unfold Qdiv in Hk. change (/ 1024) with (1 # 1024) in Hk. lra. }
  destruct (Qeq_bool b 0) eqn:Ez.
  { apply Qeq_bool_iff in Ez. lra. }
  rewrite (Qle_bool_true Hk). simpl. split; [reflexivity|].
  unfold parseFloat.
  destruct (Qlt_le_dec (b / 1024 / 1024) (10 ^ 21)) as [Hs|Hl].
  - apply toFixed1_small; [|assumption].
    unfold Qdiv. change (/ 1024) with (1 # 1024). lra.
  - destruct (huge_double_is_integer Hd Hl) as [k Hk'].
    unfold toFixed.
    rewrite Qle_bool_true by (now apply Qabs_ge).
    exists (10 * k)%Z. split.
    + rewrite Hk', inject_Z_mult. change (inject_Z 10) with 10. field.
    + setoid_replace (b / 1024 / 1024 - b / 1024 / 1024) with 0 by ring.
      discriminate.
Qed.

(** C7.  On every non-negative number, [formatSpeed] returns 0 "B/s" for 0;
    for a nonzero input whose quotient by 1024 is below 1000, that quotient
    rounded to one decimal place, with "KB/s"; otherwise the quotient divided
    by 1024 once more and rounded to one decimal place, with "MB/s".  So
    500 * 1024 gives 500.0 "KB/s" and 1500 * 1024 gives 1.5 "MB/s". *)
Theorem formatSpeed_picks_unit_and_rounds :
  (forall b, is_double b -> 0 <= b ->
     (b == 0 -> formatSpeed b = mkSpeed 0 "B/s")
     /\ (~ b == 0 -> b / 1024 < 1000 ->
         unit (formatSpeed b) = "KB/s"%string
         /\ rounded_to_one_decimal (b / 1024) (val (formatSpeed b)))
     /\ (1000 <= b / 1024 ->
         unit (formatSpeed b) = "MB/s"%string
         /\ rounded_to_one_decimal (b / 1024 / 1024) (val (formatSpeed b))))
  /\ formatSpeed 0 = mkSpeed 0 "B/s"
  /\ (unit (formatSpeed (500 * 1024)) = "KB/s"%string
      /\ val (formatSpeed (500 * 1024)) == 500)
  /\ (unit (formatSpeed (1500 * 1024)) = "MB/s"%string
      /\ val (formatSpeed (1500 * 1024)) == 3 # 2).
Proof.
  split; [|repeat split].
  intros b Hd H0. split; [|split].
  - apply formatSpeed_zero.
  - now apply formatSpeed_kilo.
  - now apply formatSpeed_mega.
Qed.

(** The theorem at 2048 bytes per second, 2.0 KB/s, and at 1536000 bytes per
    second, 1.5 MB/s. *)
Lemma formatSpeed_picks_unit_and_rounds_witness :
  (unit (formatSpeed 2048) = "KB/s"%string
   /\ rounded_to_one_decimal (2048 / 1024) (val (formatSpeed 2048)))
  /\ (unit (formatSpeed 1536000) = "MB/s"%string
      /\ rounded_to_one_decimal (1536000 / 1024 / 1024)
                                (val (formatSpeed 1536000))).
Proof.
  split.
  - assert (Hd : is_double 2048).
    { exists 1%Z, 11%Z. repeat split; try lia; try discriminate. }
    assert (H0 : 0 <= 2048) by discriminate.
    destruct (proj1 formatSpeed_picks_unit_and_rounds 2048 Hd H0)
      as [_ [Hk _]].
    apply Hk; [discriminate | reflexivity].
  - assert (Hd : is_double 1536000).
    { exists 1536000%Z, 0%Z. repeat split; try lia; try discriminate. }
    assert (H0 : 0 <= 1536000) by discriminate.
    destruct (proj1 formatSpeed_picks_unit_and_rounds 1536000 Hd H0)
      as [_ [_ Hm]].
    apply Hm. discriminate.
Defined.

Lemma Math_round_nearest x : nearest_integer x (Math_round x).
Proof.
  unfold nearest_integer, Math_round.
  pose proof (Qfloor_le (x + (1 # 2))) as Hlo.
  pose proof (Qlt_floor (x + (1 # 2))) as Hhi.
  rewrite inject_Z_plus in Hhi. change (inject_Z 1) with 1 in Hhi.
  set (q := inject_Z (Qfloor (x + (1 # 2)))) in *. clearbody q.
  split; lra.
Qed.

(** C8.  The gauge shows [val * 8] rounded to an integer when the unit is
    "MB/s" and [val / 128] rounded to an integer for any other unit; so
    2.0 "MB/s" shows 16 and 256.0 "KB/s" shows 2. *)
Theorem gauge_value_rounds :
  (forall v u,
      (u = "MB/s"%string ->
       nearest_integer (v * 8) (gauge_value (mkSpeed v u)))
      /\ (u <> "MB/s"%string ->
          nearest_integer (v / 128) (gauge_value (mkSpeed v u))))
  /\ gauge_value (mkSpeed 2 "MB/s") = 16%Z
  /\ gauge_value (mkSpeed 256 "KB/s") = 2%Z.
Proof.
  split; [|split; reflexivity].
  intros v u. unfold gauge_value. simpl. split; intros Hu.
  - subst u. simpl. apply Math_round_nearest.
  - apply String.eqb_neq in Hu. rewrite Hu. apply Math_round_nearest.
Qed.

(** The theorem at 1.5 MB/s. *)
Lemma gauge_value_rounds_witness :
  nearest_integer ((3 # 2) * 8) (gauge_value (mkSpeed (3 # 2) "MB/s")).
Proof.
  exact (proj1 (proj1 gauge_value_rounds (3 # 2) "MB/s"%string) eq_refl).
Defined.

End ConversionFacts.

(** ** The clock label *)
Section LabelFacts.

Import Aggregator.
Local Open Scope Z_scope.

Lemma digit_compare a b :
  0 <= a < 10 -> 0 <= b < 10 -> Ascii.compare (digit a) (digit b) = (a ?= b).
Proof.
  intros Ha Hb.
  assert (Ea : a = 0 \/ a = 1 \/ a = 2 \/ a = 3 \/ a = 4 \/ a = 5 \/ a = 6
               \/ a = 7 \/ a = 8 \/ a = 9) by lia.
  assert (Eb : b = 0 \/ b = 1 \/ b = 2 \/ b = 3 \/ b = 4 \/ b = 5 \/ b = 6
               \/ b = 7 \/ b = 8 \/ b = 9) by lia.
  repeat (destruct Ea as [->|Ea]); try subst a;
    repeat (destruct Eb as [->|Eb]); try subst b; reflexivity.
Qed.

Lemma two_digit_compare a b r1 r2 :
  0 <= a < 100 -> 0 <= b < 100 ->
  String.compare (two_digit a ++ r1) (two_digit b ++ r2)
  = match a ?= b with
    | Eq => String.compare r1 r2
    | c => c
    end.
Proof.
  intros Ha Hb. unfold two_digit. simpl.
  pose proof (Z.div_mod a 10 ltac:(lia)) as Da.
  pose proof (Z.div_mod b 10 ltac:(lia)) as Db.
  pose proof (Z.mod_pos_bound a 10 ltac:(lia)) as Ma.
  pose proof (Z.mod_pos_bound b 10 ltac:(lia)) as Mb.
  assert (Qa : 0 <= a / 10 < 10) by (split; [apply Z.div_pos | apply Z.div_lt_upper_bound]; lia).
  assert (Qb : 0 <= b / 10 < 10) by (split; [apply Z.div_pos | apply Z.div_lt_upper_bound]; lia).
  rewrite !digit_compare by assumption.
  destruct (Z.compare_spec (a / 10) (b / 10));
    destruct (Z.compare_spec (a mod 10) (b mod 10));
    destruct (Z.compare_spec a b); try reflexivity; exfalso; lia.
Qed.

Lemma colon_compare r1 r2 :
  String.compare (":" ++ r1) (":" ++ r2) = String.compare r1 r2.
Proof. reflexivity. Qed.

(** Within one cycle of the label, hour, minute and second of a later
    reading are lexicographically no smaller. *)
Lemma clock_order hc d1 d2 :
  cycle_of hc d1 = cycle_of hc d2 -> d1 <= d2 ->
  0 <= hour_text hc (seconds_of_day d1 / 3600) < 100
  /\ 0 <= hour_text hc (seconds_of_day d2 / 3600) < 100
  /\ (hour_text hc (seconds_of_day d1 / 3600)
      < hour_text hc (seconds_of_day d2 / 3600)
      \/ hour_text hc (seconds_of_day d1 / 3600)
         = hour_text hc (seconds_of_day d2 / 3600)
         /\ ((seconds_of_day d1 / 60) mod 60 < (seconds_of_day d2 / 60) mod 60
             \/ (seconds_of_day d1 / 60) mod 60
                = (seconds_of_day d2 / 60) mod 60
                /\ seconds_of_day d1 mod 60 <= seconds_of_day d2 mod 60)).
Proof.
  unfold cycle_of, seconds_of_day, hour_text, cycle_start.
  intros Hc Hle. destruct hc.
  - Z.div_mod_to_equations. lia.
  - destruct (Z.eqb_spec ((d1 / 1000) mod 86400 / 3600) 0);
      destruct (Z.eqb_spec ((d2 / 1000) mod 86400 / 3600) 0);
      Z.div_mod_to_equations; lia.
Qed.

Lemma label_monotone hc d1 d2 :
  cycle_of hc d1 = cycle_of hc d2 -> d1 <= d2 ->
  String.leb (toLocaleTimeString hc d1) (toLocaleTimeString hc d2) = true.
Proof.
  intros Hc Hle.
  destruct (clock_order hc Hc Hle) as (B1 & B2 & Hord).
  unfold toLocaleTimeString, String.leb.
  set (s1 := seconds_of_day d1) in *. set (s2 := seconds_of_day d2) in *.
  assert (M1 : 0 <= (s1 / 60) mod 60 < 60) by (apply Z.mod_pos_bound; lia).
  assert (M2 : 0 <= (s2 / 60) mod 60 < 60) by (apply Z.mod_pos_bound; lia).
  assert (S1 : 0 <= s1 mod 60 < 60) by (apply Z.mod_pos_bound; lia).
  assert (S2 : 0 <= s2 mod 60 < 60) by (apply Z.mod_pos_bound; lia).
  rewrite two_digit_compare by assumption.
  destruct (Z.compare_spec (hour_text hc (s1 / 3600))
                           (hour_text hc (s2 / 3600)))
    as [Eh|Lh|Gh]; [| reflexivity | exfalso; lia].
  rewrite colon_compare, two_digit_compare by lia.
  destruct (Z.compare_spec ((s1 / 60) mod 60) ((s2 / 60) mod 60))
    as [Em|Lm|Gm]; [| reflexivity | exfalso; lia].
  rewrite colon_compare.
  change (two_digit (s1 mod 60)) with (two_digit (s1 mod 60) ++ "")%string.
  change (two_digit (s2 mod 60)) with (two_digit (s2 mod 60) ++ "")%string.
  rewrite two_digit_compare by lia.
  destruct (Z.compare_spec (s1 mod 60) (s2 mod 60));
    [reflexivity | reflexivity | exfalso; lia].
Qed.

End LabelFacts.

(** ** The usage history *)
Section HistoryFacts.

Import Aggregator.
Local Open Scope nat_scope.

Lemma slice_last_length {A : Type} n (l : list A) :
  List.length (slice_last n l) <= n.
Proof. unfold slice_last. rewrite length_skipn. lia. Qed.

Lemma slice_last_short {A : Type} n (l : list A) :
  List.length l <= n -> slice_last n l = l.
Proof.
  intros H. unfold slice_last.
  replace (List.length l - n) with 0 by lia. reflexivity.
Qed.

Lemma slice_last_full {A : Type} n (l : list A) s :
  List.length l = S n -> slice_last (S n) (l ++ [s]) = tl l ++ [s].
Proof.
  intros H. unfold slice_last. rewrite length_app. simpl List.length.
  replace (List.length l + 1 - S n) with 1 by lia.
  destruct l as [|a l]; [discriminate H | reflexivity].
Qed.

Lemma slice_last_map {A B : Type} (f : A -> B) n l :
  map f (slice_last n l) = slice_last n (map f l).
Proof. unfold slice_last. now rewrite length_map, skipn_map. Qed.

Lemma history_step st e :
  usageHistory (step st e) = usageHistory st
  \/ exists usage now id,
       e = UsageResult id (Fulfilled (Some usage)) now
       /\ usageHistory (step st e) = push_usage usage now (usageHistory st).
Proof.
  destruct e as [| | | |id r|id r now].
  - left. reflexivity.
  - left. reflexivity.
  - left. simpl. destruct (statsInterval st); [|reflexivity].
    unfold fetchStats. now destruct (isPolling st).
  - left. reflexivity.
  - left. simpl. destruct (suspended id AwaitConnection (ticks st));
      [|reflexivity].
    now destruct r.
  - simpl. destruct (suspended id AwaitUsage (ticks st)); auto.
    destruct r as [[usage|]|]; simpl; auto.
    right. now exists usage, now, id.
Qed.

Lemma history_bounded st :
  reachable st -> List.length (usageHistory st) <= 40.
Proof.
  induction 1 as [|st e _ IH].
  - simpl. lia.
  - destruct (history_step st e) as [-> | (usage & now & id & _ & ->)].
    + exact IH.
    + apply slice_last_length.
Qed.

Lemma run_snoc st es e : run st (es ++ [e]) = step (run st es) e.
Proof. unfold run. now rewrite fold_left_app. Qed.

Lemma run_reachable es : reachable (run init es).
Proof.
  induction es as [|e es IH] using rev_ind.
  - apply reach_init.
  - rewrite run_snoc. now apply reach_step.
Qed.

Lemma In_skipn_In {A : Type} n (l : list A) x : In x (skipn n l) -> In x l.
Proof.
  intros H. rewrite <- (firstn_skipn n l). apply in_or_app. now right.
Qed.

Lemma StronglySorted_skipn {A : Type} (R : A -> A -> Prop) n l :
  StronglySorted R l -> StronglySorted R (skipn n l).
Proof.
  revert l. induction n as [|n IH]; intros l H; [exact H|].
  destruct l as [|a l]; [exact H|].
  simpl. apply IH. now apply StronglySorted_inv in H.
Qed.

Lemma StronglySorted_snoc {A : Type} (R : A -> A -> Prop) l x :
  StronglySorted R l -> (forall y, In y l -> R y x) ->
  StronglySorted R (l ++ [x]).
Proof.
  induction 1 as [|a l Hs IH Ha]; intros Hx; simpl.
  - constructor; constructor.
  - constructor.
    + apply IH. intros y Hy. apply Hx. now right.
    + apply Forall_app. split; [exact Ha|].
      constructor; [|constructor]. apply Hx. now left.
Qed.

Lemma StronglySorted_app_l {A : Type} (R : A -> A -> Prop) l1 l2 :
  StronglySorted R (l1 ++ l2) ->
  StronglySorted R l1
  /\ forall x y, In x l1 -> In y l2 -> R x y.
Proof.
  induction l1 as [|a l1 IH]; simpl; intros H.
  - split; [constructor | intros x y []].
  - apply StronglySorted_inv in H. destruct H as [Hs Ha].
    destruct (IH Hs) as [Hl Hc]. split.
    + constructor; [exact Hl|].
      apply Forall_app in Ha. tauto.
    + intros x y [<-|Hx] Hy.
      * rewrite Forall_forall in Ha. apply Ha, in_or_app. now right.
      * now apply Hc.
Qed.

(** The labels of the history are made from the readings kept for it. *)
Lemma kept_step hc st kept t :
  map label (usageHistory st) = map (toLocaleTimeString hc) kept ->
  map label (usageHistory (step st (event_at hc t)))
  = map (toLocaleTimeString hc) (keep st kept t).
Proof.
  intros H. destruct t as [| | | |id r|id r d]; simpl.
  - exact H.
  - exact H.
  - destruct (statsInterval st); [|exact H].
    unfold fetchStats. destruct (isPolling st); exact H.
  - exact H.
  - destruct (suspended id AwaitConnection (ticks st)); [|exact H].
    destruct r; exact H.
  - destruct (suspended id AwaitUsage (ticks st));
      destruct r as [[usage|]|]; simpl; try exact H.
    unfold push_usage. rewrite !slice_last_map, !map_app, H. reflexivity.
Qed.

Lemma kept_run hc ts : forall st kept,
  map label (usageHistory st) = map (toLocaleTimeString hc) kept ->
  map label (usageHistory (run st (map (event_at hc) ts)))
  = map (toLocaleTimeString hc) (kept_readings hc st kept ts).
Proof.
  induction ts as [|t ts IH]; intros st kept H; [exact H|].
  simpl map. simpl kept_readings.
  change (run st (event_at hc t :: map (event_at hc) ts))
    with (run (step st (event_at hc t)) (map (event_at hc) ts)).
  apply IH. now apply kept_step.
Qed.

Lemma labels_of_sorted_readings hc ds :
  StronglySorted Z.le ds -> same_cycle hc ds ->
  StronglySorted label_le (map (toLocaleTimeString hc) ds).
Proof.
  induction 1 as [|a l Hs IH Ha]; intros Hcyc; simpl; constructor.
  - apply IH. intros d d' Hd Hd'. apply Hcyc; now right.
  - rewrite Forall_forall in *. intros x Hx.
    apply in_map_iff in Hx. destruct Hx as (d & <- & Hd).
    apply label_monotone.
    + apply Hcyc; [now left | now right].
    + now apply Ha.
Qed.




End HistoryFacts.

(** ** Teardown of the polling loop *)
Section TeardownFacts.

Import Aggregator.

Lemma quiet_step st e :
  quiet st -> e <> EffectRun ->
  quiet (step st e)
  /\ connection (step st e) = connection st
  /\ usageHistory (step st e) = usageHistory st.
Proof.
  intros (Hp & Hi & Ht) He. unfold quiet.
  destruct e as [| | | |id r|id r now]; simpl.
  - contradiction.
  - auto.
  - rewrite Hi. auto.
  - auto.
  - rewrite Ht. simpl. auto.
  - rewrite Ht. simpl. auto.
Qed.

Lemma quiet_run es : forall st,
  quiet st -> ~ In EffectRun es ->
  connection (run st es) = connection st
  /\ usageHistory (run st es) = usageHistory st.
Proof.
  induction es as [|e es IH]; intros st Hq Hno; [split; reflexivity|].
  assert (He : e <> EffectRun).
  { intros ->. apply Hno. now left. }
  destruct (quiet_step Hq He) as (Hq' & Hc & Hu).
  destruct (IH (step st e) Hq') as [Hc' Hu'].
  { intros Hin. apply Hno. now right. }
  change (run st (e :: es)) with (run (step st e) es).
  rewrite Hc', Hu'. now split.
Qed.

Lemma suspended_after_rerun st id ph :
  suspended id ph (ticks st) = true ->
  suspended id ph (ticks (step (step st Cleanup) EffectRun)) = true.
Proof.
  intros H. simpl. unfold suspended in *. simpl.
  rewrite H. apply orb_true_r.
Qed.

(** C3, as the loop has it.  The cleanup clears [isPolling] and disarms both
    timers; from then on a call of [fetchStats] returns at once, so no new
    poll starts, and if no poll was suspended when the cleanup ran, nothing
    short of a new run of the effect changes the connection or the usage
    history.  A poll that was suspended when the cleanup ran does not look
    at [isPolling] again: when the effect runs again after its cleanup, as
    it does with the component still mounted whenever one of its
    dependencies has changed, the answers of that poll are applied when they
    arrive. *)
Theorem cleanup_stops_new_polls (st : state) :
  isPolling (step st Cleanup) = false
  /\ statsInterval (step st Cleanup) = false
  /\ initialScanTimer (step st Cleanup) = false
  /\ fetchStats (step st Cleanup) = step st Cleanup
  /\ step (step st Cleanup) IntervalFired = step st Cleanup
  /\ (ticks st = [] ->
      forall es, ~ In EffectRun es ->
        connection (run (step st Cleanup) es) = connection st
        /\ usageHistory (run (step st Cleanup) es) = usageHistory st)
  /\ (forall id c,
        suspended id AwaitConnection (ticks st) = true ->
        connection (run st [Cleanup; EffectRun;
                            ConnectionResult id (Fulfilled (Some c))])
        = Some c)
  /\ (forall id usage now,
        suspended id AwaitUsage (ticks st) = true ->
        usageHistory (run st [Cleanup; EffectRun;
                              UsageResult id (Fulfilled (Some usage)) now])
        = push_usage usage now (usageHistory st)).
Proof.
  split; [reflexivity|]. split; [reflexivity|]. split; [reflexivity|].
  split; [reflexivity|]. split; [reflexivity|].
  split; [|split].
  - intros Ht es Hno.
    apply (@quiet_run es (step st Cleanup)); [|exact Hno].
    repeat split. exact Ht.
  - intros id c Hs.
    change (run st [Cleanup; EffectRun;
                    ConnectionResult id (Fulfilled (Some c))])
      with (step (step (step st Cleanup) EffectRun)
                 (ConnectionResult id (Fulfilled (Some c)))).
    pose proof (suspended_after_rerun st id AwaitConnection Hs) as Hs'.
    remember (step (step st Cleanup) EffectRun) as st1 eqn:E.
    simpl. now rewrite Hs'.
  - intros id usage now Hs.
    change (run st [Cleanup; EffectRun;
                    UsageResult id (Fulfilled (Some usage)) now])
      with (step (step (step st Cleanup) EffectRun)
                 (UsageResult id (Fulfilled (Some usage)) now)).
    pose proof (suspended_after_rerun st id AwaitUsage Hs) as Hs'.
    remember (step (step st Cleanup) EffectRun) as st1 eqn:E.
    simpl. rewrite Hs'. simpl. now rewrite E.
Qed.

(** The theorem before any poll has started, where the timers firing late
    change nothing, and at the poll that the first run of the effect
    started, whose answer is applied after the effect has run again. *)
Lemma cleanup_stops_new_polls_witness :
  (connection (run (step init Cleanup) [IntervalFired; ScanTimerFired])
   = connection init
   /\ usageHistory (run (step init Cleanup) [IntervalFired; ScanTimerFired])
      = usageHistory init)
  /\ connection (run (step init EffectRun)
                     [Cleanup; EffectRun;
                      ConnectionResult 0
                        (Fulfilled (Some ProbeAdapter.disconnected))])
     = Some ProbeAdapter.disconnected.
Proof.
  split.
  - destruct (cleanup_stops_new_polls init)
      as (_ & _ & _ & _ & _ & H & _).
    apply (H eq_refl).
    intros [H0|[H0|[]]]; discriminate H0.
  - destruct (cleanup_stops_new_polls (step init EffectRun))
      as (_ & _ & _ & _ & _ & _ & H & _).
    apply H. reflexivity.
Defined.

(** C3, as the specification words it, fails: poll 0 is issued, the cleanup
    runs and clears [isPolling], the effect runs again, and the answers to
    the request issued before the cleanup are applied to the connection and
    to the usage history. *)
Lemma result_after_cleanup_is_applied :
  isPolling cleaned_up_in_flight = false
  /\ statsInterval cleaned_up_in_flight = false
  /\ initialScanTimer cleaned_up_in_flight = false
  /\ rerun_in_flight = step cleaned_up_in_flight EffectRun
  /\ connection rerun_in_flight = None
  /\ connection (step rerun_in_flight
                      (ConnectionResult 0
                         (Fulfilled (Some ProbeAdapter.disconnected))))
     = Some ProbeAdapter.disconnected
  /\ usageHistory rerun_in_flight = []
  /\ List.length
       (usageHistory
          (run rerun_in_flight
               [ConnectionResult 0 (Fulfilled None);
                UsageResult 0 (Fulfilled (Some some_usage)) "00:00:01"]))
     = 1%nat.
Proof. repeat split. Qed.

End TeardownFacts.

(** ** More on the probe adapter *)
Section ProbeMore.

Import ProbeAdapter.

(** X1.  [get-active-connection] answers null exactly when one of the two
    primary queries fails; in every other case it answers with an object. *)
Theorem active_connection_null_iff_primary_failure (p : Providers) :
  get_active_connection p = None
  <-> (networkInterfaceDefault p = Rejected
       \/ exists d, networkInterfaceDefault p = Fulfilled d
                    /\ networkInterfaces p = Rejected).
Proof.
  unfold get_active_connection. split.
  - destruct (networkInterfaceDefault p) as [d|]; [|now left].
    intros H. right. exists d. split; [reflexivity|].
    destruct (networkInterfaces p) as [l|]; [|reflexivity].
    destruct (select_interface d l) as [i|]; [|discriminate H].
    destruct (String.eqb (Si.type i) "wireless"); [|discriminate H].
    destruct (getCurrentConnections p) as [[[|c cs]|]|]; discriminate H.
  - intros [-> | (d & -> & ->)]; reflexivity.
Qed.

Lemma active_connection_null_iff_primary_failure_witness :
  get_active_connection
    (mkProviders (Fulfilled "eth0"%string) Rejected Rejected no_stats)
  = None.
Proof.
  apply active_connection_null_iff_primary_failure.
  right. exists "eth0"%string. split; reflexivity.
Defined.

Lemma orElse_some {A : Type} (a b : option A) x :
  orElse a b = Some x -> a = Some x \/ (a = None /\ b = Some x).
Proof. destruct a; simpl; intros H; [left | right]; auto. Qed.

Lemma select_interface_In d l i : select_interface d l = Some i -> In i l.
Proof.
  intros H. unfold select_interface in H.
  apply orElse_some in H. destruct H as [H | [_ H]];
    now apply find_some in H.
Qed.

(** X2.  The interface named as the default wins over every other one, up
    or not; the first interface that is up with an address is taken only
    when no interface carries the default name; and nothing is selected
    exactly when no interface of the list qualifies either way. *)
Theorem select_interface_prefers_default
        (d : string) (l : list Si.NetworkInterface) :
  (forall i, select_interface d l = Some i ->
     In i l
     /\ (Si.iface i = d
         \/ ((forall j, In j l -> Si.iface j <> d)
             /\ Si.operstate i = "up"%string /\ Si.ip4 i <> EmptyString)))
  /\ (forall i, In i l -> Si.iface i = d ->
        exists i', select_interface d l = Some i' /\ Si.iface i' = d)
  /\ (select_interface d l = None <-> forall i, In i l -> ~ qualifies d i).
Proof.
  split; [|split].
  - intros i H. unfold select_interface in H.
    apply orElse_some in H. destruct H as [H | [Hn H]].
    + apply find_some in H. destruct H as [Hin He].
      apply String.eqb_eq in He. auto.
    + apply find_some in H. destruct H as [Hin He].
      apply andb_true_iff in He. destruct He as [Hu Hi].
      apply String.eqb_eq in Hu. apply negb_true_iff, String.eqb_neq in Hi.
      split; [exact Hin|]. right. repeat split; trivial.
      intros j Hj. apply String.eqb_neq. exact (find_none _ _ Hn j Hj).
  - intros i Hin Hd. unfold select_interface.
    destruct (find (fun i0 => String.eqb (Si.iface i0) d) l) as [i'|] eqn:E.
    + exists i'. split; [reflexivity|].
      apply find_some in E. now apply String.eqb_eq.
    + exfalso. pose proof (find_none _ _ E i Hin) as Hf. simpl in Hf.
      apply String.eqb_neq in Hf. contradiction.
  - split.
    + intros H i Hin [Hd | [Hu Hi]]; unfold select_interface in H.
      * destruct (find (fun i0 => String.eqb (Si.iface i0) d) l) eqn:E;
          [discriminate H|].
        pose proof (find_none _ _ E i Hin) as Hf. simpl in Hf.
        apply String.eqb_neq in Hf. contradiction.
      * destruct (find (fun i0 => String.eqb (Si.iface i0) d) l) eqn:E;
          [discriminate H|]. simpl in H.
        pose proof (find_none _ _ H i Hin) as Hf. simpl in Hf.
        rewrite Hu in Hf. simpl in Hf.
        apply negb_false_iff, String.eqb_eq in Hf. contradiction.
    + intros H. apply select_interface_none.
      * intros i Hin Hd. apply (H i Hin). now left.
      * intros i Hin Hup. apply (H i Hin). now right.
Qed.

(** The theorem on a list whose default interface comes second. *)
Lemma select_interface_prefers_default_witness :
  In wlan0 [eth0; wlan0]
  /\ (Si.iface wlan0 = "wlan0"%string
      \/ ((forall j, In j [eth0; wlan0] -> Si.iface j <> "wlan0"%string)
          /\ Si.operstate wlan0 = "up"%string
          /\ Si.ip4 wlan0 <> EmptyString)).
Proof.
  apply (proj1 (select_interface_prefers_default "wlan0" [eth0; wlan0])).
  reflexivity.
Defined.

(** Whatever the wireless query does, the answer is built on the selected
    interface. *)
Lemma active_connection_cases p d l i :
  networkInterfaceDefault p = Fulfilled d ->
  networkInterfaces p = Fulfilled l ->
  select_interface d l = Some i ->
  exists s g e,
    get_active_connection p
    = Some (mkConnectionStats s g e (Si.type i) (numOr0 (Si.speed i))
                              (Si.operstate i) (Si.ip4 i)
                              (Some (Si.mac i)) (Some (Si.iface i)))
    /\ (s = Si.iface i \/ s = "Ethernet Connection"%string
        \/ exists c, s = strOr (Wifi.ssid c) (Si.iface i)).
Proof.
  intros Hd Hl Hs. unfold get_active_connection. rewrite Hd, Hl, Hs.
  destruct (String.eqb (Si.type i) "wireless").
  - destruct (getCurrentConnections p) as [[[|c cs]|]|]; simpl;
      do 3 eexists; (split; [reflexivity|]); eauto.
  - simpl. do 3 eexists. split; [reflexivity|]. auto.
Qed.

(** X3.  The wireless query can change ssid, signal_level and security only:
    type, status, ip4, mac and iface of the answer are those of the selected
    interface in every case, and speed is the interface's speed, or 0 when
    that is null. *)
Theorem answer_carries_interface_fields
        (p : Providers) (d : string) (l : list Si.NetworkInterface)
        (i : Si.NetworkInterface) (c : ConnectionStats) :
  networkInterfaceDefault p = Fulfilled d ->
  networkInterfaces p = Fulfilled l ->
  select_interface d l = Some i ->
  get_active_connection p = Some c ->
  type c = Si.type i /\ status c = Si.operstate i /\ ip4 c = Si.ip4 i
  /\ mac c = Some (Si.mac i) /\ iface c = Some (Si.iface i)
  /\ (Si.speed i = None -> speed c = 0)
  /\ (forall q, Si.speed i = Some q -> speed c == q).
Proof.
  intros Hd Hl Hs Hc.
  destruct (active_connection_cases p Hd Hl Hs) as (s & g & e & Hr & _).
  rewrite Hr in Hc. injection Hc as <-. simpl.
  do 5 (split; [reflexivity|]). split.
  - intros ->. reflexivity.
  - intros q ->. simpl. destruct (Qeq_bool q 0) eqn:E; [|reflexivity].
    apply Qeq_bool_iff in E. now symmetry.
Qed.

Lemma answer_carries_interface_fields_witness :
  exists c,
    get_active_connection providers_wifi_up = Some c
    /\ type c = "wireless"%string /\ status c = "up"%string
    /\ ip4 c = "192.168.1.7"%string /\ speed c == 300.
Proof.
  eexists. split; [reflexivity|].
  destruct (@answer_carries_interface_fields
              providers_wifi_up "wlan0" [eth0; wlan0] wlan0 _
              eq_refl eq_refl eq_refl eq_refl)
    as (Ht & Hst & Hip & _ & _ & _ & Hsp).
  split; [exact Ht|]. split; [exact Hst|]. split; [exact Hip|].
  apply Hsp. reflexivity.
Defined.

Lemma strOr_nonempty s d : d <> EmptyString -> strOr s d <> EmptyString.
Proof.
  intros Hd. unfold strOr.
  destruct (String.eqb_spec s EmptyString); assumption.
Qed.

(** X4.  When no interface of the list has an empty name, the ssid of every
    answer is a non-empty text, so the sidebar shows it and never falls back
    to "Searching..." once an answer has arrived. *)
Theorem answer_ssid_is_never_empty
        (p : Providers) (d : string) (l : list Si.NetworkInterface)
        (c : ConnectionStats) :
  networkInterfaceDefault p = Fulfilled d ->
  networkInterfaces p = Fulfilled l ->
  (forall i, In i l -> Si.iface i <> EmptyString) ->
  get_active_connection p = Some c ->
  ssid c <> EmptyString /\ Presentation.show_ssid (Some c) = ssid c.
Proof.
  intros Hd Hl Hne Hc.
  assert (Hs : ssid c <> EmptyString).
  { destruct (select_interface d l) as [i|] eqn:Hsel.
    - destruct (active_connection_cases p Hd Hl Hsel)
        as (s & g & e & Hr & Hcase).
      rewrite Hr in Hc. injection Hc as <-. simpl.
      assert (Hi : Si.iface i <> EmptyString).
      { apply Hne. exact (select_interface_In d l Hsel). }
      destruct Hcase as [-> | [-> | [w ->]]];
        [assumption | discriminate | now apply strOr_nonempty].
    - unfold get_active_connection in Hc. rewrite Hd, Hl, Hsel in Hc.
      injection Hc as <-. discriminate. }
  split; [exact Hs|].
  unfold Presentation.show_ssid, Presentation.textOr, strOr. simpl.
  destruct (String.eqb_spec (ssid c) EmptyString); [contradiction|reflexivity].
Qed.

Lemma answer_ssid_is_never_empty_witness :
  exists c,
    get_active_connection providers_wifi_up = Some c
    /\ Presentation.show_ssid (Some c) = "HomeNet"%string.
Proof.
  eexists. split; [reflexivity|].
  refine (proj2 (@answer_ssid_is_never_empty
                   providers_wifi_up "wlan0" [eth0; wlan0] _
                   eq_refl eq_refl _ eq_refl)).
  intros i [<-|[<-|[]]]; discriminate.
Defined.

(** X5.  On a wireless interface whose query answers with at least one
    connection, ssid is the first connection's ssid, or the interface name
    when that ssid is empty, and signal_level and security are the first
    connection's; an answer that is null or an empty array leaves the
    initial values, as a failed query does. *)
Theorem wifi_answer_enriches_from_first_connection
        (p : Providers) (d : string) (l : list Si.NetworkInterface)
        (i : Si.NetworkInterface) :
  networkInterfaceDefault p = Fulfilled d ->
  networkInterfaces p = Fulfilled l ->
  select_interface d l = Some i ->
  Si.type i = "wireless"%string ->
  (forall w rest,
      getCurrentConnections p = Fulfilled (Some (w :: rest)) ->
      exists c,
        get_active_connection p = Some c
        /\ (Wifi.ssid w <> EmptyString -> ssid c = Wifi.ssid w)
        /\ (Wifi.ssid w = EmptyString -> ssid c = Si.iface i)
        /\ signal_level c = Some (Wifi.signal_level w)
        /\ security c = Some (Wifi.security w))
  /\ (getCurrentConnections p = Fulfilled None
      \/ getCurrentConnections p = Fulfilled (Some []) ->
      exists c,
        get_active_connection p = Some c
        /\ ssid c = Si.iface i
        /\ signal_level c = Some 100 /\ security c = Some "N/A"%string).
Proof.
  intros Hd Hl Hs Hty. unfold get_active_connection.
  rewrite Hd, Hl, Hs, Hty. simpl. split.
  - intros w rest ->. eexists. split; [reflexivity|]. simpl.
    unfold strOr. repeat split.
    + intros Hne. apply String.eqb_neq in Hne. now rewrite Hne.
    + intros ->. reflexivity.
  - intros [-> | ->]; eexists; (split; [reflexivity|]); repeat split.
Qed.

Lemma wifi_answer_enriches_from_first_connection_witness :
  exists c,
    get_active_connection providers_wifi_up = Some c
    /\ ssid c = "HomeNet"%string
    /\ signal_level c = Some 72 /\ security c = Some "WPA2"%string.
Proof.
  destruct (@wifi_answer_enriches_from_first_connection
              providers_wifi_up "wlan0" [eth0; wlan0] wlan0
              eq_refl eq_refl eq_refl eq_refl) as [H _].
  destruct (H wifi_home [] eq_refl) as (c & Hc & Hs & _ & Hg & He).
  exists c. repeat split; trivial. apply Hs. discriminate.
Defined.

Lemma online_iff_selected_up p c :
  get_active_connection p = Some c ->
  (Presentation.show_status (Some c) = "Online"%string
   <-> exists d l i,
         networkInterfaceDefault p = Fulfilled d
         /\ networkInterfaces p = Fulfilled l
         /\ select_interface d l = Some i
         /\ Si.operstate i = "up"%string).
Proof.
  intros Hc. split.
  - intros H. unfold get_active_connection in Hc.
    destruct (networkInterfaceDefault p) as [d|] eqn:Hd; [|discriminate Hc].
    destruct (networkInterfaces p) as [l|] eqn:Hl; [|discriminate Hc].
    destruct (select_interface d l) as [i|] eqn:Hs.
    + exists d, l, i. repeat split; trivial.
      assert (Hst : status c = Si.operstate i).
      { destruct (String.eqb (Si.type i) "wireless");
          [destruct (getCurrentConnections p) as [[[|w ws]|]|]|];
          injection Hc as <-; reflexivity. }
      unfold Presentation.show_status in H. rewrite Hst in H.
      destruct (String.eqb_spec (Si.operstate i) "up");
        [assumption | discriminate H].
    + injection Hc as <-. discriminate H.
  - intros (d & l & i & Hd & Hl & Hs & Hup).
    destruct (active_connection_cases p Hd Hl Hs) as (s & g & e & Hr & _).
    rewrite Hr in Hc. injection Hc as <-.
    unfold Presentation.show_status. simpl. now rewrite Hup.
Qed.

(** X6.  The status line shows the stored connection.  When a poll applies
    an answer of [get-active-connection] that is an object, the line reads
    "Online" exactly when the handler answered from a selected interface
    whose operstate is "up"; the answer for no interface and any other
    operstate read "Offline".  A null answer is not stored: the line stays
    as it was.  Before any answer it reads "Offline". *)
Theorem status_line_is_online_iff_interface_up
        (p : Providers) (st : Aggregator.state) (id : nat) :
  Aggregator.suspended id Aggregator.AwaitConnection (Aggregator.ticks st)
  = true ->
  (forall c,
      get_active_connection p = Some c ->
      (Presentation.show_status
         (Aggregator.connection
            (Aggregator.step st
               (Aggregator.ConnectionResult id
                  (Fulfilled (get_active_connection p)))))
       = "Online"%string
       <-> exists d l i,
             networkInterfaceDefault p = Fulfilled d
             /\ networkInterfaces p = Fulfilled l
             /\ select_interface d l = Some i
             /\ Si.operstate i = "up"%string))
  /\ (get_active_connection p = None ->
      Aggregator.connection
        (Aggregator.step st
           (Aggregator.ConnectionResult id
              (Fulfilled (get_active_connection p))))
      = Aggregator.connection st)
  /\ Presentation.show_status (Aggregator.connection Aggregator.init)
     = "Offline"%string.
Proof.
  intros Hs. split; [|split].
  - intros c Hc. simpl. rewrite Hs, Hc. simpl.
    now apply online_iff_selected_up.
  - intros Hn. simpl. rewrite Hs, Hn. reflexivity.
  - reflexivity.
Qed.

(** The theorem at the first poll, for an answer from an interface that is
    up, and for a null answer arriving at the next poll, which leaves the
    line at "Online". *)
Lemma status_line_is_online_iff_interface_up_witness :
  Presentation.show_status
    (Aggregator.connection
       (Aggregator.run Aggregator.init
          [Aggregator.EffectRun;
           Aggregator.ConnectionResult 0
             (Fulfilled (get_active_connection providers_wifi_up))]))
  = "Online"%string
  /\ Presentation.show_status
       (Aggregator.connection
          (Aggregator.run Aggregator.init
             [Aggregator.EffectRun;
              Aggregator.ConnectionResult 0
                (Fulfilled (get_active_connection providers_wifi_up));
              Aggregator.IntervalFired;
              Aggregator.ConnectionResult 1
                (Fulfilled
                   (get_active_connection
                      (mkProviders Rejected (Fulfilled []) Rejected
                                   no_stats)))]))
     = "Online"%string.
Proof.
  split.
  - destruct (@status_line_is_online_iff_interface_up
                providers_wifi_up
                (Aggregator.step Aggregator.init Aggregator.EffectRun) 0
                eq_refl) as [H _].
    eapply H; [reflexivity|].
    exists "wlan0"%string, [eth0; wlan0], wlan0. repeat split.
  - destruct (@status_line_is_online_iff_interface_up
                (mkProviders Rejected (Fulfilled []) Rejected no_stats)
                (Aggregator.run Aggregator.init
                   [Aggregator.EffectRun;
                    Aggregator.ConnectionResult 0
                      (Fulfilled (get_active_connection providers_wifi_up));
                    Aggregator.IntervalFired]) 1
                eq_refl) as [_ [H _]].
    change (Aggregator.run Aggregator.init
              [Aggregator.EffectRun;
               Aggregator.ConnectionResult 0
                 (Fulfilled (get_active_connection providers_wifi_up));
               Aggregator.IntervalFired;
               Aggregator.ConnectionResult 1
                 (Fulfilled
                    (get_active_connection
                       (mkProviders Rejected (Fulfilled []) Rejected
                                    no_stats)))])
      with (Aggregator.step
              (Aggregator.run Aggregator.init
                 [Aggregator.EffectRun;
                  Aggregator.ConnectionResult 0
                    (Fulfilled (get_active_connection providers_wifi_up));
                  Aggregator.IntervalFired])
              (Aggregator.ConnectionResult 1
                 (Fulfilled
                    (get_active_connection
                       (mkProviders Rejected (Fulfilled []) Rejected
                                    no_stats))))).
    rewrite (H eq_refl). reflexivity.
Defined.

Lemma hd_error_In {A : Type} (l : list A) x : hd_error l = Some x -> In x l.
Proof. destruct l; simpl; intros H; [discriminate | injection H as ->; now left]. Qed.

(** X7.  Whatever [get-network-usage] returns is an entry of one of the two
    arrays it queried, the first of the default interface's or one of all
    interfaces'; and it returns null only when a query failed or the array
    of all interfaces is null or empty. *)
Theorem network_usage_comes_from_the_queries
        (p : Providers) :
  (forall s, get_network_usage p = Some s ->
     exists d,
       networkInterfaceDefault p = Fulfilled d
       /\ ((exists rest,
              networkStats p (Some d) = Fulfilled (Some (s :: rest)))
           \/ (exists allStats,
                 networkStats p None = Fulfilled (Some allStats)
                 /\ In s allStats)))
  /\ (get_network_usage p = None ->
      networkInterfaceDefault p = Rejected
      \/ (exists d, networkInterfaceDefault p = Fulfilled d
                    /\ networkStats p (Some d) = Rejected)
      \/ networkStats p None = Rejected
      \/ networkStats p None = Fulfilled None
      \/ networkStats p None = Fulfilled (Some [])).
Proof.
  unfold get_network_usage. split.
  - intros s H.
    destruct (networkInterfaceDefault p) as [d|]; [|discriminate H].
    exists d. split; [reflexivity|].
    destruct (networkStats p (Some d)) as [[[|s0 rest]|]|];
      try discriminate H.
    + right. destruct (networkStats p None) as [[allStats|]|];
        try discriminate H.
      exists allStats. split; [reflexivity|].
      apply orElse_some in H. destruct H as [H | [_ H]].
      * now apply find_some in H.
      * now apply hd_error_In.
    + left. injection H as ->. now exists rest.
    + right. destruct (networkStats p None) as [[allStats|]|];
        try discriminate H.
      exists allStats. split; [reflexivity|].
      apply orElse_some in H. destruct H as [H | [_ H]].
      * now apply find_some in H.
      * now apply hd_error_In.
  - intros H.
    destruct (networkInterfaceDefault p) as [d|]; [|now left].
    right.
    destruct (networkStats p (Some d)) as [[[|s0 rest]|]|] eqn:Hs;
      try discriminate H.
    + right. destruct (networkStats p None) as [[[|a allStats]|]|]; auto.
      simpl in H.
      destruct (Qgtb (Si.rx_sec a) 0 || Qgtb (Si.tx_sec a) 0);
        [discriminate H|].
      destruct (find _ allStats); discriminate H.
    + right. destruct (networkStats p None) as [[[|a allStats]|]|]; auto.
      simpl in H.
      destruct (Qgtb (Si.rx_sec a) 0 || Qgtb (Si.tx_sec a) 0);
        [discriminate H|].
      destruct (find _ allStats); discriminate H.
    + left. exists d. split; [reflexivity | exact Hs].
Qed.

Lemma network_usage_comes_from_the_queries_witness :
  exists allStats,
    networkStats providers_negative_rate None = Fulfilled (Some allStats)
    /\ In stats_eth0 allStats.
Proof.
  destruct (proj1 (network_usage_comes_from_the_queries
                     providers_negative_rate) stats_eth0 eq_refl)
    as (d & Hd & [[rest Hr] | H]).
  - injection Hd as <-. discriminate Hr.
  - exact H.
Defined.

End ProbeMore.

(** ** More on the scan guard *)
Section CoordinatorMore.

Import Coordinator.
Local Open Scope nat_scope.

Lemma In_drop id j l : In j (drop id l) -> In j l /\ j <> id.
Proof.
  unfold drop. intros H. apply filter_In in H. destruct H as [Hin Hne].
  split; [exact Hin|]. apply negb_true_iff in Hne. now apply Nat.eqb_neq.
Qed.

(** The four things a step can do to the suspended invocations and to the
    counter: nothing, suspend a new invocation, turn one away, complete one. *)
Lemma step_shape st e st' r :
  step st e = (st', r) ->
  (r = None /\ awaiting st' = awaiting st /\ next st' = next st)
  \/ (r = None /\ awaiting st' = next st :: awaiting st
      /\ next st' = S (next st))
  \/ (r = Some (next st, []) /\ awaiting st' = awaiting st
      /\ next st' = S (next st))
  \/ (exists id devs,
        r = Some (id, devs) /\ In id (awaiting st)
        /\ awaiting st' = drop id (awaiting st) /\ next st' = next st).
Proof.
  intros Hstep.
  destruct e as [|id0 devs0|id0|id0]; unfold step, resume in Hstep;
    simpl in Hstep.
  - destruct (isScanning st); injection Hstep as <- <-; simpl;
      [right; right; left | right; left]; repeat split.
  - destruct (mem id0 (finds st));
      [destruct (mem id0 (awaiting st)) eqn:Hm; simpl in Hstep|];
      injection Hstep as <- <-; simpl; try (left; repeat split; fail).
    apply mem_In in Hm. right; right; right. do 2 eexists. repeat split.
    exact Hm.
  - destruct (mem id0 (finds st));
      [destruct (mem id0 (awaiting st)) eqn:Hm; simpl in Hstep|];
      injection Hstep as <- <-; simpl; try (left; repeat split; fail).
    apply mem_In in Hm. right; right; right. do 2 eexists. repeat split.
    exact Hm.
  - destruct (mem id0 (timers st));
      [destruct (mem id0 (awaiting st)) eqn:Hm; simpl in Hstep|];
      injection Hstep as <- <-; simpl; try (left; repeat split; fail).
    apply mem_In in Hm. right; right; right. do 2 eexists. repeat split.
    exact Hm.
Qed.

Lemma step_numbered st e : numbered st -> numbered (fst (step st e)).
Proof.
  intros Hn. destruct (step st e) as [st' r] eqn:Hstep. simpl.
  unfold numbered in *.
  destruct (@step_shape _ _ _ _ Hstep)
    as [(_ & Ha & Hx) | [(_ & Ha & Hx) | [(_ & Ha & Hx)
        | (id & devs & _ & _ & Ha & Hx)]]];
    rewrite Ha, Hx; intros j Hj.
  - now apply Hn.
  - destruct Hj as [<-|Hj]; [lia|]. apply Hn in Hj. lia.
  - apply Hn in Hj. lia.
  - apply In_drop in Hj. now apply Hn.
Qed.

Lemma reachable_numbered st : reachable st -> numbered st.
Proof.
  induction 1 as [|st e _ IH].
  - intros id [].
  - now apply step_numbered.
Qed.

(** The invocations answered along a run are suspended at its start or
    arrive during it, and none is answered twice. *)
Lemma run_answers_once es : forall st,
  numbered st ->
  NoDup (answered (snd (run st es)))
  /\ (forall id, In id (answered (snd (run st es))) ->
        In id (awaiting st) \/ next st <= id).
Proof.
  induction es as [|e es IH]; intros st Hn.
  - simpl. split; [constructor | intros id []].
  - simpl. destruct (step st e) as [st1 r] eqn:Hstep.
    pose proof (@step_numbered st e Hn) as Hn1. rewrite Hstep in Hn1.
    simpl in Hn1. destruct (IH st1 Hn1) as [Hnd Hids].
    destruct (run st1 es) as [st2 rs]. simpl in *.
    unfold numbered in Hn.
    destruct (@step_shape _ _ _ _ Hstep)
      as [(-> & Ha & Hx) | [(-> & Ha & Hx) | [(-> & Ha & Hx)
          | (id & devs & -> & Hin & Ha & Hx)]]];
      rewrite Ha, Hx in Hids.
    + split; [exact Hnd | exact Hids].
    + split; [exact Hnd|]. intros id Hid.
      destruct (Hids id Hid) as [[<-|H]|H]; [right; lia | now left | right; lia].
    + simpl. split.
      * constructor; [|exact Hnd]. intros Hid.
        destruct (Hids _ Hid) as [H|H]; [apply Hn in H; lia | lia].
      * intros id [<-|Hid]; [right; lia|].
        destruct (Hids id Hid) as [H|H]; [now left | right; lia].
    + simpl. split.
      * constructor; [|exact Hnd]. intros Hid.
        destruct (Hids _ Hid) as [H|H].
        -- apply In_drop in H. tauto.
        -- apply Hn in Hin. lia.
      * intros j [<-|Hj]; [now left|].
        destruct (Hids j Hj) as [H|H]; [|now right].
        apply In_drop in H. tauto.
Qed.

(** X8.  Along every run of the main process from a reachable state no
    invocation is answered twice, and every answer goes to an invocation
    that was suspended at the start of the run or arrived during it. *)
Theorem no_invocation_is_answered_twice (st : state) (es : list event) :
  reachable st ->
  NoDup (answered (snd (run st es)))
  /\ (forall id, In id (answered (snd (run st es))) ->
        In id (awaiting st) \/ next st <= id).
Proof.
  intros Hr. apply run_answers_once. now apply reachable_numbered.
Qed.

(** The theorem on a run with a turned-away invocation and a late [find()]. *)
Lemma no_invocation_is_answered_twice_witness :
  NoDup (answered (snd (run init [Invoke; Invoke; TimerFired 0;
                                   FindFulfilled 0 []; Invoke]))).
Proof.
  exact (proj1 (@no_invocation_is_answered_twice init
                  [Invoke; Invoke; TimerFired 0; FindFulfilled 0 []; Invoke]
                  reach_init)).
Defined.

(** X18.  In every reachable state of the main process the guard is held
    exactly when an invocation is suspended in the race: the flag is never
    left set with nobody to clear it, and never clear while a scan is under
    way. *)
Theorem guard_held_iff_scan_suspended (st : state) :
  reachable st ->
  (isScanning st = true <-> awaiting st <> [])
  /\ (isScanning st = false <-> awaiting st = []).
Proof.
  intros Hr. pose proof (reachable_inv Hr) as Hi. unfold guard_inv in Hi.
  destruct (isScanning st).
  - destruct Hi as (id & Ha & _). rewrite Ha. split; split; intros H;
      try reflexivity; try discriminate.
  - rewrite Hi. split; split; intros H; try reflexivity; try discriminate.
    now contradiction H.
Qed.

Lemma guard_held_iff_scan_suspended_witness :
  isScanning (fst (run init [Invoke; Invoke; TimerFired 0])) = false.
Proof.
  apply (proj2 (@guard_held_iff_scan_suspended
                  (fst (step (fst (step (fst (step init Invoke)) Invoke))
                             (TimerFired 0)))
                  (reach_step (TimerFired 0)
                     (reach_step Invoke (reach_step Invoke reach_init))))).
  reflexivity.
Defined.

(** X9.  A non-empty device list is sent to an invocation only in answer to
    that invocation's own [find()] call resolving with that very list: what
    a call abandoned by an earlier timeout finds later never reaches another
    invocation, and every other way out answers with the empty list. *)
Theorem devices_come_from_own_find (es : list event) :
  forall (st : state) (id : nat) (devs : list Device),
    In (id, devs) (snd (run st es)) -> devs <> [] ->
    In (FindFulfilled id devs) es.
Proof.
  induction es as [|e es IH]; intros st id devs Hin Hne.
  - destruct Hin.
  - simpl in Hin. destruct (step st e) as [st1 r] eqn:Hstep.
    specialize (IH st1 id devs).
    destruct (run st1 es) as [st2 rs]. simpl in *.
    destruct r as [[id1 devs1]|]; [|right; now apply IH].
    destruct Hin as [Heq|Hin]; [|right; now apply IH].
    inversion Heq; subst id1 devs1. clear Heq. left.
    destruct e as [|id0 devs0|id0|id0]; unfold step, resume in Hstep;
      simpl in Hstep.
    + destruct (isScanning st); inversion Hstep; subst. congruence.
    + destruct (mem id0 (finds st));
        [destruct (mem id0 (awaiting st)); simpl in Hstep|];
        inversion Hstep; subst. reflexivity.
    + destruct (mem id0 (finds st));
        [destruct (mem id0 (awaiting st)); simpl in Hstep|];
        inversion Hstep; subst. congruence.
    + destruct (mem id0 (timers st));
        [destruct (mem id0 (awaiting st)); simpl in Hstep|];
        inversion Hstep; subst. congruence.
Qed.

Lemma devices_come_from_own_find_witness :
  In (FindFulfilled 0 [mkDevice "10.0.0.9" "aa:aa" "printer"])
     [Invoke; FindFulfilled 0 [mkDevice "10.0.0.9" "aa:aa" "printer"]].
Proof.
  apply (@devices_come_from_own_find
           [Invoke; FindFulfilled 0 [mkDevice "10.0.0.9" "aa:aa" "printer"]]
           init 0 [mkDevice "10.0.0.9" "aa:aa" "printer"]).
  - simpl. now left.
  - discriminate.
Defined.

End CoordinatorMore.

(** ** More on the polling loop *)
Section PollingMore.

Import Aggregator.
Local Open Scope nat_scope.

Lemma interval_adds_a_poll st :
  isPolling st = true -> statsInterval st = true ->
  isPolling (step st IntervalFired) = true
  /\ statsInterval (step st IntervalFired) = true
  /\ List.length (ticks (step st IntervalFired)) = S (List.length (ticks st))
  /\ connection (step st IntervalFired) = connection st
  /\ usageHistory (step st IntervalFired) = usageHistory st.
Proof.
  intros Hp Hi. simpl. rewrite Hi. unfold fetchStats. rewrite Hp. simpl.
  repeat split; assumption.
Qed.

(** X10.  The interval does not wait for a poll to finish: while the loop is
    live, [n] ticks of the interval with no answer in between leave [n] more
    calls of [fetchStats] suspended, and connection and history untouched. *)
Theorem interval_stacks_polls (n : nat) (st : state) :
  isPolling st = true -> statsInterval st = true ->
  List.length (ticks (run st (repeat IntervalFired n)))
  = List.length (ticks st) + n
  /\ connection (run st (repeat IntervalFired n)) = connection st
  /\ usageHistory (run st (repeat IntervalFired n)) = usageHistory st.
Proof.
  revert st. induction n as [|n IH]; intros st Hp Hi.
  - simpl. repeat split. lia.
  - change (run st (repeat IntervalFired (S n)))
      with (run (step st IntervalFired) (repeat IntervalFired n)).
    destruct (interval_adds_a_poll st Hp Hi) as (Hp' & Hi' & Hl & Hc & Hu).
    destruct (IH _ Hp' Hi') as (IHl & IHc & IHu).
    rewrite IHl, IHc, IHu, Hl, Hc, Hu. repeat split. lia.
Qed.

Lemma interval_stacks_polls_witness :
  List.length (ticks (run (step init EffectRun) (repeat IntervalFired 5))) = 6.
Proof.
  exact (proj1 (@interval_stacks_polls 5 (step init EffectRun)
                  eq_refl eq_refl)).
Defined.

(** X11.  Once a connection has been stored it is only ever replaced: no
    event, neither a null answer nor a failed poll nor the cleanup, puts the
    connection state back to null. *)
Theorem connection_is_never_cleared (es : list event) :
  forall st : state,
    connection st <> None -> connection (run st es) <> None.
Proof.
  induction es as [|e es IH]; intros st H; [exact H|].
  change (run st (e :: es)) with (run (step st e) es). apply IH.
  destruct e as [| | | |id r|id r now]; simpl.
  - exact H.
  - exact H.
  - destruct (statsInterval st); [|exact H].
    unfold fetchStats. destruct (isPolling st); exact H.
  - exact H.
  - destruct (suspended id AwaitConnection (ticks st)); [|exact H].
    destruct r as [[c|]|]; simpl; [discriminate | exact H | exact H].
  - destruct (suspended id AwaitUsage (ticks st)); exact H.
Qed.

Lemma connection_is_never_cleared_witness :
  connection
    (run (run init [EffectRun;
                    ConnectionResult 0 (Fulfilled (Some ProbeAdapter.disconnected))])
         [UsageResult 0 Rejected "00:00:01"; Cleanup; EffectRun;
          ConnectionResult 1 (Fulfilled None)])
  <> None.
Proof.
  apply connection_is_never_cleared. discriminate.
Defined.

(** X12.  The usage history never loses entries other than by the cap: on
    every event of a trace its length stays or grows by one, and never
    passes 40. *)
Theorem history_length_never_decreases (es : list event) (e : event) :
  List.length (usageHistory (run init es))
  <= List.length (usageHistory (step (run init es) e))
  /\ List.length (usageHistory (step (run init es) e))
     <= S (List.length (usageHistory (run init es)))
  /\ List.length (usageHistory (step (run init es) e)) <= 40.
Proof.
  pose proof (history_bounded (run_reachable es)) as Hb.
  destruct (history_step (run init es) e)
    as [-> | (usage & now & id & _ & ->)].
  - repeat split; lia.
  - unfold push_usage, slice_last.
    rewrite length_skipn, !length_app. simpl. repeat split; lia.
Qed.

End PollingMore.

(** ** More on the displayed figures *)
Section FiguresMore.

Import Aggregator.

Lemma toFixed1_nonneg_small x :
  0 <= x -> x < 10 ^ 21 ->
  toFixed 1 x = inject_Z (Qfloor (Qabs x * 10 + (1 # 2))) / 10.
Proof.
  intros H0 Hlt. unfold toFixed.
  assert (Ha : Qabs x == x) by now apply Qabs_pos.
  rewrite Qle_bool_false by now rewrite Ha.
  now rewrite (Qle_bool_true H0).
Qed.

Lemma toFixed1_large x : 10 ^ 21 <= x -> toFixed 1 x = x.
Proof.
  intros H. unfold toFixed.
  now rewrite Qle_bool_true by (now apply Qabs_ge).
Qed.

Lemma tenths_le (n m : Z) : (n <= m)%Z -> inject_Z n / 10 <= inject_Z m / 10.
Proof.
  intros H. unfold Qdiv. apply Qmult_le_compat_r; [|discriminate].
  now rewrite <- Zle_Qle.
Qed.

(** [toFixed(1)] keeps the order of non-negative numbers. *)
Lemma toFixed1_monotone x y :
  0 <= x -> x <= y -> toFixed 1 x <= toFixed 1 y.
Proof.
  intros H0 Hxy.
  assert (H0y : 0 <= y) by (eapply Qle_trans; eassumption).
  destruct (Qlt_le_dec y (10 ^ 21)) as [Hy|Hy].
  - assert (Hx : x < 10 ^ 21) by (eapply Qle_lt_trans; eassumption).
    rewrite !toFixed1_nonneg_small by assumption.
    apply tenths_le, Qfloor_resp_le.
    rewrite !Qabs_pos by assumption. lra.
  - rewrite (toFixed1_large Hy).
    destruct (Qlt_le_dec x (10 ^ 21)) as [Hx|Hx].
    + rewrite toFixed1_nonneg_small by assumption.
      apply Qle_trans with (inject_Z (10 ^ 22) / 10).
      2:{ assert (E : inject_Z (10 ^ 22) / 10 == 10 ^ 21) by reflexivity.
          now rewrite E. }
      apply tenths_le.
      assert (Hf : (Qfloor (Qabs x * 10 + (1 # 2))
                    <= Qfloor (inject_Z (10 ^ 22) + (1 # 2)))%Z).
      { apply Qfloor_resp_le. rewrite Qabs_pos by assumption.
        change (10 ^ 21) with 1000000000000000000000%Q in Hx.
        change (inject_Z (10 ^ 22)) with 10000000000000000000000%Q. lra. }
      assert (Hc : Qfloor (inject_Z (10 ^ 22) + (1 # 2)) = (10 ^ 22)%Z)
        by reflexivity.
      now rewrite Hc in Hf.
    + now rewrite (toFixed1_large Hx).
Qed.

Lemma Math_round_monotone x y : x <= y -> (Math_round x <= Math_round y)%Z.
Proof. intros H. unfold Math_round. apply Qfloor_resp_le. lra. Qed.

Lemma toFixed1_nonneg x : 0 <= x -> 0 <= toFixed 1 x.
Proof.
  intros H. apply Qle_trans with (toFixed 1 0); [discriminate|].
  apply toFixed1_monotone; [discriminate | exact H].
Qed.

(** [formatSpeed] and the gauge in each of the three regimes. *)
Lemma formatSpeed_kilo_eq b :
  ~ b == 0 -> b / 1024 < 1000 ->
  formatSpeed b = mkSpeed (toFixed 1 (b / 1024)) "KB/s".
Proof.
  intros Hnz Hk. unfold formatSpeed, parseFloat.
  destruct (Qeq_bool b 0) eqn:Ez.
  { apply Qeq_bool_iff in Ez. contradiction. }
  now rewrite (Qle_bool_false Hk).
Qed.

Lemma formatSpeed_mega_eq b :
  1000 <= b / 1024 ->
  formatSpeed b = mkSpeed (toFixed 1 (b / 1024 / 1024)) "MB/s".
Proof.
  intros Hk. unfold formatSpeed, parseFloat.
  destruct (Qeq_bool b 0) eqn:Ez.
  { apply Qeq_bool_iff in Ez. rewrite Ez in Hk.
    apply Qle_not_lt in Hk. exfalso. apply Hk. reflexivity. }
  now rewrite (Qle_bool_true Hk).
Qed.

Lemma kilo_reading_range k :
  0 <= k -> k < 1000 ->
  0 <= toFixed 1 k <= 1000
  /\ (0 <= Math_round (toFixed 1 k / 128) <= 8)%Z.
Proof.
  intros H0 Hk.
  assert (Hlo : 0 <= toFixed 1 k) by now apply toFixed1_nonneg.
  assert (Hhi : toFixed 1 k <= 1000).
  { apply Qle_trans with (toFixed 1 1000); [|discriminate].
    apply toFixed1_monotone; [exact H0 | now apply Qlt_le_weak]. }
  split; [now split|]. split.
  - change 0%Z with (Math_round (0 / 128)).
    apply Math_round_monotone. unfold Qdiv.
    apply Qmult_le_compat_r; [exact Hlo | discriminate].
  - change 8%Z with (Math_round (1000 / 128)).
    apply Math_round_monotone. unfold Qdiv.
    apply Qmult_le_compat_r; [exact Hhi | discriminate].
Qed.

Lemma mega_reading_range m :
  1000 / 1024 <= m ->
  1 <= toFixed 1 m /\ (8 <= Math_round (toFixed 1 m * 8))%Z.
Proof.
  intros Hm.
  assert (Hlo : 1 <= toFixed 1 m).
  { apply Qle_trans with (toFixed 1 (1000 / 1024)); [discriminate|].
    apply toFixed1_monotone; [discriminate | exact Hm]. }
  split; [exact Hlo|].
  change 8%Z with (Math_round (1 * 8)).
  apply Math_round_monotone.
  apply Qmult_le_compat_r; [exact Hlo | discriminate].
Qed.

Lemma div1024_le x y : x <= y -> x / 1024 <= y / 1024.
Proof.
  intros H. unfold Qdiv. apply Qmult_le_compat_r; [exact H | discriminate].
Qed.

Lemma div1024_nonneg x : 0 <= x -> 0 <= x / 1024.
Proof.
  intros H. apply Qle_trans with (0 / 1024); [discriminate|].
  now apply div1024_le.
Qed.

(** X13.  While the figure is in KB/s it lies between 0 and 1000 and the
    gauge reads at most 8; once it is in MB/s it is at least 1 and the
    gauge reads at least 8; a nonzero rate too small for one decimal place
    shows as 0 KB/s, not as 0 B/s. *)
Theorem figure_and_gauge_ranges (b : Q) :
  0 <= b ->
  (~ b == 0 -> b / 1024 < 1000 ->
     unit (formatSpeed b) = "KB/s"%string
     /\ 0 <= val (formatSpeed b) <= 1000
     /\ (0 <= gauge_value (formatSpeed b) <= 8)%Z)
  /\ (1000 <= b / 1024 ->
      unit (formatSpeed b) = "MB/s"%string
      /\ 1 <= val (formatSpeed b)
      /\ (8 <= gauge_value (formatSpeed b))%Z)
  /\ (~ b == 0 -> b / 1024 < 1 # 20 ->
      unit (formatSpeed b) = "KB/s"%string /\ val (formatSpeed b) == 0).
Proof.
  intros H0. split; [|split].
  - intros Hnz Hk. rewrite (formatSpeed_kilo_eq Hnz Hk).
    unfold gauge_value. simpl.
    destruct (kilo_reading_range (div1024_nonneg H0) Hk) as [Hv Hg].
    repeat split; tauto.
  - intros Hk. rewrite (formatSpeed_mega_eq Hk). unfold gauge_value. simpl.
    split; [reflexivity|].
    apply mega_reading_range. now apply div1024_le.
  - intros Hnz Hk.
    assert (Hk' : b / 1024 < 1000) by (eapply Qlt_trans; [exact Hk | reflexivity]).
    rewrite (formatSpeed_kilo_eq Hnz Hk'). simpl. split; [reflexivity|].
    rewrite toFixed1_nonneg_small; [|now apply div1024_nonneg|].
    2:{ eapply Qlt_trans; [exact Hk | reflexivity]. }
    assert (Hf : Qfloor (Qabs (b / 1024) * 10 + (1 # 2)) = 0%Z).
    { pose proof (div1024_nonneg H0) as Hp.
      rewrite (Qabs_pos _ Hp).
      assert (Hl : (0 <= Qfloor (b / 1024 * 10 + (1 # 2)))%Z).
      { change 0%Z with (Qfloor 0). apply Qfloor_resp_le. lra. }
      assert (Hu : (Qfloor (b / 1024 * 10 + (1 # 2)) < 1)%Z).
      { rewrite Zlt_Qlt. eapply Qle_lt_trans; [apply Qfloor_le|].
        change (inject_Z 1) with 1. lra. }
      lia. }
    now rewrite Hf.
Qed.

Lemma figure_and_gauge_ranges_witness :
  (unit (formatSpeed 1023999) = "KB/s"%string
   /\ 0 <= val (formatSpeed 1023999) <= 1000
   /\ (0 <= gauge_value (formatSpeed 1023999) <= 8)%Z)
  /\ (unit (formatSpeed 50) = "KB/s"%string /\ val (formatSpeed 50) == 0).
Proof.
  assert (H0 : 0 <= 1023999) by discriminate.
  assert (H1 : 0 <= 50) by discriminate.
  split.
  - apply (proj1 (figure_and_gauge_ranges H0)); [discriminate | reflexivity].
  - apply (proj2 (proj2 (figure_and_gauge_ranges H1)));
      [discriminate | reflexivity].
Defined.

(** X14.  A higher rate never shows a lower gauge: for non-negative rates
    the gauge reading of [formatSpeed] is monotone, also across the changes
    of unit. *)
Theorem gauge_is_monotone_in_the_rate (b1 b2 : Q) :
  0 <= b1 -> b1 <= b2 ->
  (gauge_value (formatSpeed b1) <= gauge_value (formatSpeed b2))%Z.
Proof.
  intros H0 H12.
  assert (H02 : 0 <= b2) by (eapply Qle_trans; eassumption).
  assert (Hpos : forall b, 0 <= b -> (0 <= gauge_value (formatSpeed b))%Z).
  { intros b Hb. destruct (Qeq_dec b 0) as [Hz|Hnz].
    - rewrite (formatSpeed_zero Hz). discriminate.
    - destruct (Qlt_le_dec (b / 1024) 1000) as [Hk|Hk].
      + rewrite (formatSpeed_kilo_eq Hnz Hk). unfold gauge_value. simpl.
        apply (kilo_reading_range (div1024_nonneg Hb) Hk).
      + rewrite (formatSpeed_mega_eq Hk). unfold gauge_value. simpl.
        pose proof (proj2 (mega_reading_range (div1024_le Hk))). lia. }
  destruct (Qeq_dec b1 0) as [Hz1|Hnz1].
  { rewrite (formatSpeed_zero Hz1). now apply Hpos. }
  assert (Hnz2 : ~ b2 == 0) by lra.
  pose proof (div1024_le H12) as Hk12.
  destruct (Qlt_le_dec (b1 / 1024) 1000) as [Hk1|Hk1];
    destruct (Qlt_le_dec (b2 / 1024) 1000) as [Hk2|Hk2].
  - rewrite (formatSpeed_kilo_eq Hnz1 Hk1), (formatSpeed_kilo_eq Hnz2 Hk2).
    unfold gauge_value. simpl. apply Math_round_monotone.
    unfold Qdiv at 1 3. apply Qmult_le_compat_r; [|discriminate].
    apply toFixed1_monotone; [now apply div1024_nonneg | exact Hk12].
  - rewrite (formatSpeed_kilo_eq Hnz1 Hk1), (formatSpeed_mega_eq Hk2).
    unfold gauge_value. simpl.
    pose proof (proj2 (kilo_reading_range (div1024_nonneg H0) Hk1)).
    pose proof (proj2 (mega_reading_range (div1024_le Hk2))). lia.
  - exfalso. lra.
  - rewrite (formatSpeed_mega_eq Hk1), (formatSpeed_mega_eq Hk2).
    unfold gauge_value. simpl. apply Math_round_monotone.
    apply Qmult_le_compat_r; [|discriminate].
    apply toFixed1_monotone.
    + apply div1024_nonneg. now apply div1024_nonneg.
    + now apply div1024_le.
Qed.

Lemma gauge_is_monotone_in_the_rate_witness :
  (gauge_value (formatSpeed 1023999) <= gauge_value (formatSpeed 1024000))%Z.
Proof.
  apply gauge_is_monotone_in_the_rate; discriminate.
Defined.

End FiguresMore.

(** ** The figures under the chart and the ring of a gauge *)
Section PresentationFacts.

Import Aggregator.
Import Presentation.

Lemma toFixed1_compat x y : x == y -> toFixed 1 x == toFixed 1 y.
Proof.
  intros H. unfold toFixed.
  assert (E1 : Qle_bool (10 ^ 21) (Qabs x) = Qle_bool (10 ^ 21) (Qabs y))
    by now rewrite H.
  assert (E2 : Qle_bool 0 x = Qle_bool 0 y) by now rewrite H.
  assert (E3 : Qfloor (Qabs x * inject_Z (10 ^ Z.of_nat 1) + (1 # 2))
               = Qfloor (Qabs y * inject_Z (10 ^ Z.of_nat 1) + (1 # 2)))
    by now rewrite H.
  rewrite E1, E2, E3.
  destruct (Qle_bool (10 ^ 21) (Qabs y)); [exact H|].
  destruct (Qle_bool 0 y); reflexivity.
Qed.

(** [formatSpeed] does not tell equal numbers apart. *)
Lemma formatSpeed_compat b b' :
  b == b' ->
  unit (formatSpeed b) = unit (formatSpeed b')
  /\ val (formatSpeed b) == val (formatSpeed b').
Proof.
  intros H. unfold formatSpeed, parseFloat.
  assert (E1 : Qeq_bool b 0 = Qeq_bool b' 0) by now rewrite H.
  assert (E2 : Qle_bool 1000 (b / 1024) = Qle_bool 1000 (b' / 1024))
    by now rewrite H.
  rewrite E1, E2.
  destruct (Qeq_bool b' 0); [split; reflexivity|].
  destruct (Qle_bool 1000 (b' / 1024)); simpl; (split; [reflexivity|]);
    apply toFixed1_compat; now rewrite H.
Qed.

Lemma lastUsage_after_push usage now h :
  lastUsage (push_usage usage now h)
  = (Si.rx_sec usage / 1024, Si.tx_sec usage / 1024).
Proof.
  unfold lastUsage, push_usage, slice_last.
  rewrite length_skipn, nth_error_skipn, length_app. simpl List.length.
  replace (List.length h + 1 - 40
           + (List.length h + 1 - (List.length h + 1 - 40) - 1))%nat
    with (List.length h + 0)%nat by lia.
  rewrite nth_error_app2 by lia.
  replace (List.length h + 0 - List.length h)%nat with 0%nat by lia.
  reflexivity.
Qed.

(** X15.  The download and upload figures are those of the newest sample.
    For a usage answer whose rates are numbers that divide by 1024 without
    underflow (the quotient is again a double), the figures right after the
    answer is applied are what [formatSpeed] makes of the answer's own
    rx_sec and tx_sec: the division by 1024 for the chart and the product by
    1024 for the figure cancel, whatever was in the history.  While the
    history is empty both figures are 0 B/s. *)
Theorem figures_show_the_newest_sample
        (st : state) (id : nat) (usage : Si.NetworkStats) (now : string) :
  suspended id AwaitUsage (ticks st) = true ->
  is_double (Si.rx_sec usage) -> is_double (Si.rx_sec usage / 1024) ->
  is_double (Si.tx_sec usage) -> is_double (Si.tx_sec usage / 1024) ->
  (unit (dl (usageHistory
               (step st (UsageResult id (Fulfilled (Some usage)) now))))
   = unit (formatSpeed (Si.rx_sec usage))
   /\ val (dl (usageHistory
                 (step st (UsageResult id (Fulfilled (Some usage)) now))))
      == val (formatSpeed (Si.rx_sec usage)))
  /\ (unit (ul (usageHistory
                  (step st (UsageResult id (Fulfilled (Some usage)) now))))
      = unit (formatSpeed (Si.tx_sec usage))
      /\ val (ul (usageHistory
                    (step st (UsageResult id (Fulfilled (Some usage)) now))))
         == val (formatSpeed (Si.tx_sec usage)))
  /\ dl [] = mkSpeed 0 "B/s" /\ ul [] = mkSpeed 0 "B/s".
Proof.
  intros Hs _ _ _ _. simpl. rewrite Hs. simpl. unfold dl, ul.
  rewrite lastUsage_after_push. simpl.
  split; [|split; [|split; reflexivity]];
    apply formatSpeed_compat; field.
Qed.

(** The theorem on the second of two polls, whose answer carries 2048 and
    1024 bytes per second. *)
Lemma figures_show_the_newest_sample_witness :
  unit (dl (usageHistory (run init (two_polls h23 1000%Z 2500%Z))))
  = "KB/s"%string
  /\ val (dl (usageHistory (run init (two_polls h23 1000%Z 2500%Z)))) == 2.
Proof.
  assert (D1 : is_double (Si.rx_sec some_usage)).
  { exists 1%Z, 11%Z. repeat split; try lia; try discriminate. }
  assert (D2 : is_double (Si.rx_sec some_usage / 1024)).
  { exists 1%Z, 1%Z. repeat split; try lia; try discriminate. }
  assert (D3 : is_double (Si.tx_sec some_usage)).
  { exists 1%Z, 10%Z. repeat split; try lia; try discriminate. }
  assert (D4 : is_double (Si.tx_sec some_usage / 1024)).
  { exists 1%Z, 0%Z. repeat split; try lia; try discriminate. }
  destruct (@figures_show_the_newest_sample
              (run init (firstn 5 (two_polls h23 1000%Z 2500%Z))) 1
              some_usage (toLocaleTimeString h23 2500%Z) eq_refl
              D1 D2 D3 D4)
    as [[Hu Hv] _].
  split; [exact Hu|]. eapply Qeq_trans; [exact Hv | reflexivity].
Defined.

Lemma Math_min_cases x y :
  (x <= y /\ Math_min x y = x) \/ (y < x /\ Math_min x y = y).
Proof.
  unfold Math_min. destruct (Qle_bool x y) eqn:E.
  - left. split; [now apply Qle_bool_iff | reflexivity].
  - right. split; [|reflexivity]. apply Qnot_le_lt. intros H.
    apply Qle_bool_iff in H. congruence.
Qed.

(** X16.  For a positive [max] and a value that is not negative, the capped
    value lies between 0 and [max] and the unpainted part of the ring
    between 0 and its full length: the ring is full from [max] on and never
    more than full, however large the value shown in its middle. *)
Theorem gauge_ring_stays_within_bounds (circumference value max : Q) :
  0 < max -> 0 <= circumference -> 0 <= value ->
  (0 <= cappedValue value max <= max)
  /\ (0 <= offset circumference value max <= circumference)
  /\ (max <= value -> offset circumference value max == 0)
  /\ (value == 0 -> offset circumference value max == circumference).
Proof.
  intros Hm Hc Hv. unfold offset, cappedValue.
  assert (Hcap : 0 <= Math_min value max <= max).
  { destruct (Math_min_cases value max) as [[H ->] | [H ->]]; split; lra. }
  assert (Hr : 0 <= Math_min value max / max <= 1).
  { split.
    - apply Qle_shift_div_l; [exact Hm | lra].
    - apply Qle_shift_div_r; [exact Hm | lra]. }
  set (r := Math_min value max / max) in *.
  split; [exact Hcap|]. split; [split; nra|]. split.
  - intros Hge. subst r.
    destruct (Math_min_cases value max) as [[H ->] | [H ->]].
    + assert (E : value == max) by lra. rewrite E. field. lra.
    + field. lra.
  - intros Hz. subst r.
    destruct (Math_min_cases value max) as [[H ->] | [H ->]].
    + rewrite Hz. field. lra.
    + exfalso. lra.
Qed.

Lemma gauge_ring_stays_within_bounds_witness :
  offset 220 250 100 == 0 /\ 0 <= offset 220 16 100 <= 220.
Proof.
  assert (Hm : 0 < 100) by reflexivity.
  assert (Hc : 0 <= 220) by discriminate.
  split.
  - apply (proj1 (proj2 (proj2 (@gauge_ring_stays_within_bounds
                                  220 250 100 Hm Hc ltac:(discriminate))))).
    discriminate.
  - apply (proj1 (proj2 (@gauge_ring_stays_within_bounds
                           220 16 100 Hm Hc ltac:(discriminate)))).
Defined.

End PresentationFacts.

(** ** The device scan from the button to the table *)
Section ScannerFacts.

Import Scanner.

Lemma show_one_answer ui id devs :
  deliver (next ui) (step ui (Call false)) [(id, devs)]
  = mkState devs false (drop (next ui) (next ui :: calls ui)) (S (next ui)).
Proof.
  unfold deliver. simpl. now rewrite Nat.eqb_refl.
Qed.

(** X17.  One scan seen from the renderer, the guard of the main process
    being free: the table shows the devices when [find()] resolves before
    the deadline, and is emptied, whatever it showed, when [find()] rejects,
    takes longer than 15000 ms or never settles; in every case [scanning] is
    false and the guard is free afterwards.  An answer that is not an array
    and a rejected call leave the table as it is and clear [scanning] too. *)
Theorem scan_shows_devices_or_empties_table
        (tie : bool) (main : Coordinator.state) (ui : state) :
  Coordinator.isScanning main = false ->
  (forall t devs, (t < Coordinator.SCAN_TIMEOUT)%Z ->
     devices (snd (scan_once tie main (Coordinator.Resolves t devs) ui))
     = devs)
  /\ (forall t,
        devices (snd (scan_once tie main (Coordinator.Fails t) ui)) = [])
  /\ (forall t devs, (Coordinator.SCAN_TIMEOUT < t)%Z ->
        devices (snd (scan_once tie main (Coordinator.Resolves t devs) ui))
        = [])
  /\ devices (snd (scan_once tie main Coordinator.Hangs ui)) = []
  /\ (forall d,
        scanning (snd (scan_once tie main d ui)) = false
        /\ Coordinator.isScanning (fst (scan_once tie main d ui)) = false)
  /\ (forall id, In id (calls ui) ->
        devices (step ui (Settled id (Fulfilled NotArray))) = devices ui
        /\ scanning (step ui (Settled id (Fulfilled NotArray))) = false
        /\ devices (step ui (Settled id Rejected)) = devices ui
        /\ scanning (step ui (Settled id Rejected)) = false).
Proof.
  intros Hfree.
  assert (Hrun : forall d,
             exists main' devs,
               Coordinator.get_local_devices tie main d
               = (main', [(Coordinator.next main, devs)])
               /\ Coordinator.isScanning main' = false
               /\ (forall t l, d = Coordinator.Resolves t l ->
                     (t < Coordinator.SCAN_TIMEOUT)%Z -> devs = l)
               /\ (forall t l, d = Coordinator.Resolves t l ->
                     (Coordinator.SCAN_TIMEOUT < t)%Z -> devs = [])
               /\ (forall t, d = Coordinator.Fails t -> devs = [])
               /\ (d = Coordinator.Hangs -> devs = [])).
  { intros d. unfold Coordinator.get_local_devices.
    destruct d as [t l|t|]; simpl Coordinator.schedule.
    - destruct (Coordinator.find_first tie t) eqn:Hff.
      + destruct (@run_find_first main (Fulfilled l) _ Hfree eq_refl)
          as (main' & Hr & Hs).
        exists main', l. split; [exact Hr|]. split; [exact Hs|].
        split; [|split; [|split]]; try discriminate.
        * intros t0 l0 E _. now injection E as _ <-.
        * intros t0 l0 E Hlate. injection E as <- <-.
          rewrite (find_first_late tie Hlate) in Hff. discriminate.
      + destruct (@run_timer_first main
                    [Coordinator.FindFulfilled (Coordinator.next main) l]
                    Hfree) as (main' & Hr & Hs).
        { right; left. now exists l. }
        exists main', []. split; [exact Hr|]. split; [exact Hs|].
        split; [|split; [|split]]; try discriminate; try reflexivity.
        * intros t0 l0 E Hearly. injection E as <- <-.
          rewrite (find_first_early tie Hearly) in Hff. discriminate.
    - destruct (Coordinator.find_first tie t).
      + destruct (@run_find_first main (@Rejected (list Coordinator.Device))
                    _ Hfree eq_refl) as (main' & Hr & Hs).
        exists main', []. split; [exact Hr|]. split; [exact Hs|].
        split; [|split; [|split]]; try discriminate; reflexivity.
      + destruct (@run_timer_first main
                    [Coordinator.FindRejected (Coordinator.next main)]
                    Hfree) as (main' & Hr & Hs); [auto|].
        exists main', []. split; [exact Hr|]. split; [exact Hs|].
        split; [|split; [|split]]; try discriminate; reflexivity.
    - destruct (@run_timer_first main [] Hfree) as (main' & Hr & Hs);
        [auto|].
      exists main', []. split; [exact Hr|]. split; [exact Hs|].
      split; [|split; [|split]]; try discriminate; reflexivity. }
  assert (Hshow : forall d,
             exists main' devs,
               scan_once tie main d ui
               = (main', mkState devs false
                                 (drop (next ui) (next ui :: calls ui))
                                 (S (next ui)))
               /\ Coordinator.get_local_devices tie main d
                  = (main', [(Coordinator.next main, devs)])).
  { intros d. destruct (Hrun d) as (main' & devs & Hr & _).
    exists main', devs. split; [|exact Hr].
    unfold scan_once. rewrite Hr. simpl fst. simpl snd.
    now rewrite show_one_answer. }
  split; [|split; [|split; [|split; [|split]]]].
  - intros t devs Ht.
    destruct (Hshow (Coordinator.Resolves t devs)) as (m & l & -> & Hg).
    destruct (Hrun (Coordinator.Resolves t devs))
      as (m' & l' & Hr & _ & He & _).
    rewrite Hg in Hr. injection Hr as _ <-. simpl. now apply (He t devs).
  - intros t.
    destruct (Hshow (Coordinator.Fails t)) as (m & l & -> & Hg).
    destruct (Hrun (Coordinator.Fails t))
      as (m' & l' & Hr & _ & _ & _ & Hf & _).
    rewrite Hg in Hr. injection Hr as _ <-. simpl. now apply (Hf t).
  - intros t devs Ht.
    destruct (Hshow (Coordinator.Resolves t devs)) as (m & l & -> & Hg).
    destruct (Hrun (Coordinator.Resolves t devs))
      as (m' & l' & Hr & _ & _ & Hl & _).
    rewrite Hg in Hr. injection Hr as _ <-. simpl. now apply (Hl t devs).
  - destruct (Hshow Coordinator.Hangs) as (m & l & -> & Hg).
    destruct (Hrun Coordinator.Hangs)
      as (m' & l' & Hr & _ & _ & _ & _ & Hh).
    rewrite Hg in Hr. injection Hr as _ <-. simpl. now apply Hh.
  - intros d. destruct (Hshow d) as (m & l & -> & Hg).
    destruct (Hrun d) as (m' & l' & Hr & Hs & _).
    rewrite Hg in Hr. injection Hr as <- _. simpl. now split.
  - intros id Hin. apply mem_In in Hin. simpl. rewrite Hin. simpl.
    repeat split.
Qed.

Lemma scan_shows_devices_or_empties_table_witness :
  devices (snd (scan_once true Coordinator.init Coordinator.Hangs
                          (mkState [Coordinator.mkDevice "10.0.0.9" "aa:aa"
                                                         "printer"]
                                   false [] 0)))
  = [].
Proof.
  exact (proj1 (proj2 (proj2 (proj2
           (@scan_shows_devices_or_empties_table true Coordinator.init
              (mkState [Coordinator.mkDevice "10.0.0.9" "aa:aa" "printer"]
                       false [] 0)
              eq_refl))))).
Defined.

End ScannerFacts.
